(** * goarpa: the API client, its error mapper and its JSON helper types

    A shallow embedding of the Go package [goarpa] (the client in its
    two versions, the models and the token) and of the properties its
    specification states about it.

    Conventions of the embedding:
    - a Go [string] is a [String.string]: a sequence of 8-bit bytes;
    - a Go [int] or [rune] is a [Z];
    - a Go [error] is an [option] of the error's text ([None] is [nil]);
    - a slice is an [option (list _)]: [None] is the nil slice, which Go
      tells apart from an empty one when it marshals it;
    - a pointer is a location of an explicit heap that every operation
      threads; a run-time panic is an outcome of its own;
    - the libraries the client calls are modelled as far as it uses
      them: [strings], [errors], [net/http] header keys, [resty] requests
      and responses, [opentracing] injection, and [encoding/json] with
      [unicode/utf8] for strings and slices of strings.

    The definitions come first, the properties after them. *)

From Stdlib Require Import ZArith Ascii String List Bool Lia Zbitwise.
From stdpp Require Import base option list strings gmap.

Local Open Scope string_scope.
Local Open Scope list_scope.
Local Open Scope Z_scope.

(** ** The Go [strings] package, as far as the client uses it *)

Module strings.

(** [strings.HasPrefix]. *)
Fixpoint HasPrefix (s prefix : string) {struct prefix} : bool :=
  match prefix with
  | EmptyString => true
  | String p prefix' =>
      match s with
      | EmptyString => false
      | String c s' => if Ascii.eqb c p then HasPrefix s' prefix' else false
      end
  end.

(** [strings.Index]: the byte offset of the first occurrence of
    [substr] in [s], or [-1]. [indexFrom i] scans a suffix that starts
    at offset [i]. *)
Fixpoint indexFrom (i : Z) (s substr : string) : Z :=
  if HasPrefix s substr then i
  else match s with
       | EmptyString => -1
       | String _ s' => indexFrom (i + 1) s' substr
       end.

Definition Index (s substr : string) : Z := indexFrom 0 s substr.

(** [strings.Contains]: [Index(s, substr) >= 0]. *)
Definition Contains (s substr : string) : bool := 0 <=? Index s substr.

(** [strings.Join]. *)
Fixpoint Join (elems : list string) (sep : string) : string :=
  match elems with
  | [] => ""
  | [e] => e
  | e :: rest => e +:+ sep +:+ Join rest sep
  end.

(** Membership of a byte in a cut set. *)
Fixpoint inCutset (c : ascii) (cutset : string) : bool :=
  match cutset with
  | EmptyString => false
  | String d cutset' => Ascii.eqb c d || inCutset c cutset'
  end.

(** [strings.TrimRight] for a cut set of ASCII bytes (the client's
    only cut set is the one-byte separator): the bytes of the cut set
    are removed from the end of [s], one at a time, until the last byte
    is not in the set. *)
Fixpoint TrimRight (s cutset : string) : string :=
  match s with
  | EmptyString => EmptyString
  | String c s' =>
      match TrimRight s' cutset with
      | EmptyString =>
          if inCutset c cutset then EmptyString else String c EmptyString
      | kept => String c kept
      end
  end.

(** The substring relation in words: [substr] occurs somewhere in [s]. *)
Definition occurs_in (substr s : string) : Prop :=
  exists before after, s = before +:+ substr +:+ after.

End strings.

(** ** Errors *)

(** A Go [error] value, observed through its [Error()] text. *)
Definition error : Type := option string.

Module errors.
(** [errors.Wrap(err, message).Error()] of [github.com/pkg/errors],
    for a non-nil [err]: the message, a colon and the cause. *)
Definition Wrap_Error (err_text message : string) : string :=
  message +:+ ": " +:+ err_text.
End errors.

(** ** models.go: the error type *)

(** [type APIErrType string]. *)
Definition APIErrType : Type := string.

Definition APIErrTypeUnknown : APIErrType := "unknown".
Definition APIErrTypeInvalidGrant : APIErrType := "oauth: invalid grant".

Definition ParseAPIErrType (err : error) : APIErrType :=
  match err with
  | None => APIErrTypeUnknown
  | Some text =>
      if strings.Contains text "invalid_grant" then APIErrTypeInvalidGrant
      else APIErrTypeUnknown
  end.

Record APIError : Type := mkAPIError {
  Code : Z;
  Message : string;
  Type_ : APIErrType
}.

(** [APIError.Error()]. *)
Definition APIError_Error (apiError : APIError) : string := Message apiError.


(** ** Slices, outcomes and the heap *)

(** A Go slice: [None] is the nil slice. *)
Definition slice (A : Type) : Type := option (list A).

(** [len(s)]. *)
Definition len {A : Type} (s : slice A) : Z :=
  match s with
  | None => 0
  | Some l => Z.of_nat (List.length l)
  end.

(** The result of running Go code that may panic. *)
Inductive Outcome (A : Type) : Type :=
| Ret (a : A)
| Panic (reason : string).
Arguments Ret {A} a.
Arguments Panic {A} reason.

(** [s[0]]: the first element, or the run-time panic of an index out of
    range (on the nil slice as on an empty one). *)
Definition index0 {A : Type} (s : slice A) : Outcome A :=
  match s with
  | Some (x :: _) => Ret x
  | _ => Panic "index out of range [0] with length 0"
  end.

(** ** Bytes *)

(** The value of a byte, and the conversion [byte(x)] of an integer,
    which keeps its low eight bits. *)
Definition byteVal (c : ascii) : Z := Z.of_N (N_of_ascii c).
Definition byteOf (z : Z) : ascii := ascii_of_N (Z.to_N (z mod 256)).

(** [s[i]] for an index that the caller has checked. *)
Definition byteAt (s : string) (i : nat) : Z :=
  match String.get i s with
  | Some c => byteVal c
  | None => 0
  end.

(** [s[:n]] and [s[n:]], cut at the end of [s]. *)
Fixpoint takeBytes (n : nat) (s : string) : string :=
  match n, s with
  | S n', String c s' => String c (takeBytes n' s')
  | _, _ => EmptyString
  end.

Fixpoint dropBytes (n : nat) (s : string) : string :=
  match n, s with
  | S n', String _ s' => dropBytes n' s'
  | _, _ => s
  end.

(** ** The Go [unicode/utf8] and [unicode/utf16] packages *)

Module utf8.

Definition RuneError : Z := 65533.
Definition RuneSelf : Z := 128.
Definition MaxRune : Z := 1114111.

Definition maskx : Z := 63.
Definition mask2 : Z := 31.
Definition mask3 : Z := 15.
Definition mask4 : Z := 7.
Definition tx : Z := 128.
Definition t2 : Z := 192.
Definition t3 : Z := 224.
Definition t4 : Z := 240.
Definition locb : Z := 128.
Definition hicb : Z := 191.

(** The table [first] with its [acceptRanges], for a first byte that
    is not ASCII: the length of the sequence and the range of its
    second byte, or [None] for a byte that starts no sequence. *)
Definition first (b : Z) : option (nat * Z * Z) :=
  if b <? 194 then None
  else if b <=? 223 then Some (2%nat, locb, hicb)
  else if b =? 224 then Some (3%nat, 160, hicb)
  else if b <=? 236 then Some (3%nat, locb, hicb)
  else if b =? 237 then Some (3%nat, locb, 159)
  else if b <=? 239 then Some (3%nat, locb, hicb)
  else if b =? 240 then Some (4%nat, 144, hicb)
  else if b <=? 243 then Some (4%nat, locb, hicb)
  else if b =? 244 then Some (4%nat, locb, 143)
  else None.

(** [utf8.DecodeRuneInString]: the first rune of [s] and its width in
    bytes; [(RuneError, 1)] for an encoding that is not valid. *)
Definition DecodeRuneInString (s : string) : Z * nat :=
  let n := String.length s in
  if (n <? 1)%nat then (RuneError, 0%nat)
  else
    let s0 := byteAt s 0 in
    if s0 <? RuneSelf then (s0, 1%nat)
    else
      match first s0 with
      | None => (RuneError, 1%nat)
      | Some (sz, lo, hi) =>
          if (n <? sz)%nat then (RuneError, 1%nat)
          else
            let s1 := byteAt s 1 in
            if (s1 <? lo) || (hi <? s1) then (RuneError, 1%nat)
            else if (sz <=? 2)%nat then
              (Z.lor (Z.shiftl (Z.land s0 mask2) 6) (Z.land s1 maskx), 2%nat)
            else
              let s2 := byteAt s 2 in
              if (s2 <? locb) || (hicb <? s2) then (RuneError, 1%nat)
              else if (sz <=? 3)%nat then
                (Z.lor (Z.lor (Z.shiftl (Z.land s0 mask3) 12)
                          (Z.shiftl (Z.land s1 maskx) 6))
                   (Z.land s2 maskx), 3%nat)
              else
                let s3 := byteAt s 3 in
                if (s3 <? locb) || (hicb <? s3) then (RuneError, 1%nat)
                else
                  (Z.lor (Z.lor (Z.lor (Z.shiftl (Z.land s0 mask4) 18)
                                   (Z.shiftl (Z.land s1 maskx) 12))
                            (Z.shiftl (Z.land s2 maskx) 6))
                     (Z.land s3 maskx), 4%nat)
      end.

(** [byte(x)] as a number. *)
Definition low8 (x : Z) : Z := x mod 256.

(** [utf8.EncodeRune]: the bytes of a rune; a rune out of range or a
    surrogate half is written as [RuneError]. *)
Definition EncodeRune (r : Z) : string :=
  if (0 <=? r) && (r <=? 127) then String (byteOf r) EmptyString
  else if (0 <=? r) && (r <=? 2047) then
    String (byteOf (Z.lor t2 (low8 (Z.shiftr r 6))))
      (String (byteOf (Z.lor tx (Z.land (low8 r) maskx))) EmptyString)
  else if (0 <=? r) && ((r <? 55296) || ((57343 <? r) && (r <=? 65535))) then
    String (byteOf (Z.lor t3 (low8 (Z.shiftr r 12))))
      (String (byteOf (Z.lor tx (Z.land (low8 (Z.shiftr r 6)) maskx)))
         (String (byteOf (Z.lor tx (Z.land (low8 r) maskx))) EmptyString))
  else if (65535 <? r) && (r <=? MaxRune) then
    String (byteOf (Z.lor t4 (low8 (Z.shiftr r 18))))
      (String (byteOf (Z.lor tx (Z.land (low8 (Z.shiftr r 12)) maskx)))
         (String (byteOf (Z.lor tx (Z.land (low8 (Z.shiftr r 6)) maskx)))
            (String (byteOf (Z.lor tx (Z.land (low8 r) maskx))) EmptyString)))
  else String (byteOf 239) (String (byteOf 191) (String (byteOf 189) EmptyString)).

(** [utf8.ValidString]: [s] consists of valid encodings only. The
    fuel counts the runes still to be read. *)
Fixpoint validFrom (fuel : nat) (s : string) : bool :=
  match fuel with
  | O => match s with EmptyString => true | _ => false end
  | S fuel' =>
      match s with
      | EmptyString => true
      | String _ _ =>
          let '(r, size) := DecodeRuneInString s in
          if (r =? RuneError) && (size =? 1)%nat then false
          else validFrom fuel' (dropBytes size s)
      end
  end.

Definition ValidString (s : string) : bool := validFrom (String.length s) s.

End utf8.

Module utf16.

Definition surr1 : Z := 55296.
Definition surr2 : Z := 56320.
Definition surr3 : Z := 57344.
Definition surrSelf : Z := 65536.
Definition replacementChar : Z := 65533.

Definition IsSurrogate (r : Z) : bool := (surr1 <=? r) && (r <? surr3).

(** [utf16.DecodeRune]: the rune of a surrogate pair, or the
    replacement character when the two are not such a pair. *)
Definition DecodeRune (r1 r2 : Z) : Z :=
  if (surr1 <=? r1) && (r1 <? surr2) && (surr2 <=? r2) && (r2 <? surr3) then
    Z.lor (Z.shiftl (r1 - surr1) 10) (r2 - surr2) + surrSelf
  else replacementChar.

End utf16.

(** ** The Go [encoding/json] package, for strings and slices of strings *)

(** The outcome of decoding: a value, or an error (of syntax or of
    type; the client's code does not tell them apart). *)
Inductive result (A : Type) : Type :=
| ok (a : A)
| failed.
Arguments ok {A} a.
Arguments failed {A}.

Module json.

Definition quote : ascii := "034"%char.
Definition backslash : ascii := "\"%char.

(** [hex[n]] in ["0123456789abcdef"]. *)
Definition hexDigit (n : Z) : ascii :=
  if n <? 10 then byteOf (48 + n) else byteOf (87 + n).

(** [htmlSafeSet[b]] for an ASCII byte: printable, and none of the
    quote, the backslash, [<], [>] and [&]. *)
Definition htmlSafe (b : Z) : bool :=
  (32 <=? b) && negb (b =? 34) && negb (b =? 92)
  && negb (b =? 60) && negb (b =? 62) && negb (b =? 38).

(** The escape of an ASCII byte that is not in the safe set. *)
Definition escapeByte (c : ascii) : string :=
  let b := byteVal c in
  if (b =? 92) || (b =? 34) then String backslash (String c EmptyString)
  else if b =? 8 then "\b"
  else if b =? 12 then "\f"
  else if b =? 10 then "\n"
  else if b =? 13 then "\r"
  else if b =? 9 then "\t"
  else "\u00" +:+ String (hexDigit (Z.shiftr b 4))
                    (String (hexDigit (Z.land b 15)) EmptyString).

(** The loop of [appendString] with HTML escaping, which [Marshal]
    uses: the text between the quotes. Each turn consumes at least one
    byte of [src]; the fuel bounds the turns. *)
Fixpoint appendBody (fuel : nat) (src : string) : string :=
  match fuel with
  | O => EmptyString
  | S fuel' =>
      match src with
      | EmptyString => EmptyString
      | String c rest =>
          let b := byteVal c in
          if b <? utf8.RuneSelf then
            (if htmlSafe b then String c EmptyString else escapeByte c)
            +:+ appendBody fuel' rest
          else
            let '(r, size) := utf8.DecodeRuneInString src in
            if (r =? utf8.RuneError) && (size =? 1)%nat then
              "�" +:+ appendBody fuel' rest
            else if (r =? 8232) || (r =? 8233) then
              "\u202" +:+ String (hexDigit (Z.land r 15)) EmptyString
              +:+ appendBody fuel' (dropBytes size src)
            else
              takeBytes size src +:+ appendBody fuel' (dropBytes size src)
      end
  end.

Definition appendString (src : string) : string :=
  String quote (appendBody (String.length src) src +:+ String quote EmptyString).

(** [json.Marshal] of a string and of a slice of strings; neither can
    fail. *)
Definition Marshal_string (s : string) : string := appendString s.

Fixpoint joinElements (l : list string) : string :=
  match l with
  | [] => EmptyString
  | [e] => appendString e
  | e :: rest => appendString e +:+ "," +:+ joinElements rest
  end.

Definition Marshal_strings (v : slice string) : string :=
  match v with
  | None => "null"
  | Some l => "[" +:+ joinElements l +:+ "]"
  end.

(** The value of a hexadecimal digit. *)
Definition hexVal (c : ascii) : option Z :=
  let b := byteVal c in
  if (48 <=? b) && (b <=? 57) then Some (b - 48)
  else if (97 <=? b) && (b <=? 102) then Some (b - 97 + 10)
  else if (65 <=? b) && (b <=? 70) then Some (b - 65 + 10)
  else None.

(** [getu4]: the number of a [\uXXXX] escape at the start of [s], or
    [-1]. *)
Definition getu4 (s : string) : Z :=
  match s with
  | String c0 (String c1 (String h1 (String h2 (String h3 (String h4 _))))) =>
      if (byteVal c0 =? 92) && (byteVal c1 =? 117) then
        match hexVal h1, hexVal h2, hexVal h3, hexVal h4 with
        | Some d1, Some d2, Some d3, Some d4 =>
            ((d1 * 16 + d2) * 16 + d3) * 16 + d4
        | _, _, _, _ => -1
        end
      else -1
  | _ => -1
  end.

(** The byte that a one-letter escape stands for. *)
Definition simpleEscape (c : ascii) : option ascii :=
  let b := byteVal c in
  if (b =? 34) || (b =? 92) || (b =? 47) then Some c
  else if b =? 98 then Some (byteOf 8)
  else if b =? 102 then Some (byteOf 12)
  else if b =? 110 then Some (byteOf 10)
  else if b =? 114 then Some (byteOf 13)
  else if b =? 116 then Some (byteOf 9)
  else None.

(** Decoded text in front of the outcome of the rest. *)
Definition emit (text : string) (r : result (string * string))
  : result (string * string) :=
  match r with
  | ok (decoded, rest) => ok (text +:+ decoded, rest)
  | failed => failed
  end.

(** A string literal after its opening quote: the scanner's check of
    the literal and [unquote] in one pass. The outcome is the decoded
    text and what follows the closing quote. Control bytes and unknown
    escapes are errors; a [\u] escape of a surrogate half takes the next
    escape with it if the two make a pair and is the replacement
    character otherwise; bytes that are no valid UTF-8 are coerced to the
    replacement character. *)
Fixpoint unquoteBody (fuel : nat) (s : string) : result (string * string) :=
  match fuel with
  | O => failed
  | S fuel' =>
      match s with
      | EmptyString => failed
      | String c rest =>
          let b := byteVal c in
          if b =? 34 then ok (EmptyString, rest)
          else if b =? 92 then
            match rest with
            | EmptyString => failed
            | String e rest' =>
                match simpleEscape e with
                | Some d => emit (String d EmptyString) (unquoteBody fuel' rest')
                | None =>
                    if byteVal e =? 117 then
                      let rr := getu4 s in
                      if rr <? 0 then failed
                      else
                        let after := dropBytes 6 s in
                        if utf16.IsSurrogate rr then
                          let dec := utf16.DecodeRune rr (getu4 after) in
                          if negb (dec =? utf16.replacementChar) then
                            emit (utf8.EncodeRune dec)
                              (unquoteBody fuel' (dropBytes 6 after))
                          else
                            emit (utf8.EncodeRune utf16.replacementChar)
                              (unquoteBody fuel' after)
                        else emit (utf8.EncodeRune rr) (unquoteBody fuel' after)
                    else failed
                end
            end
          else if b <? 32 then failed
          else if b <? utf8.RuneSelf then
            emit (String c EmptyString) (unquoteBody fuel' rest)
          else
            let '(rr, size) := utf8.DecodeRuneInString s in
            emit (utf8.EncodeRune rr) (unquoteBody fuel' (dropBytes size s))
      end
  end.

(** JSON white space: space, tab, carriage return, line feed. *)
Definition isSpace (c : ascii) : bool :=
  let b := byteVal c in (b =? 32) || (b =? 9) || (b =? 13) || (b =? 10).

Fixpoint skipSpace (s : string) : string :=
  match s with
  | String c s' => if isSpace c then skipSpace s' else s
  | EmptyString => EmptyString
  end.

(** Nothing but white space is left. *)
Definition atEnd (s : string) : bool :=
  match skipSpace s with
  | EmptyString => true
  | String _ _ => false
  end.

(** One value where a string is expected: a string literal, or [null],
    which leaves the target as it is. Any other text is an error: it
    is a value of another type or no JSON at all. *)
Definition stringValue (s : string) (current : string)
  : result (string * string) :=
  match s with
  | String c rest =>
      if byteVal c =? 34 then unquoteBody (String.length rest) rest
      else if strings.HasPrefix s "null" then ok (current, dropBytes 4 s)
      else failed
  | EmptyString => failed
  end.

(** [json.Unmarshal(data, &v)] for a string [v]. *)
Definition Unmarshal_string (data : string) (v : string) : result string :=
  match stringValue (skipSpace data) v with
  | ok (decoded, rest) => if atEnd rest then ok decoded else failed
  | failed => failed
  end.

(** The elements of an array after its opening bracket, up to the
    closing one. [s] starts at an element. *)
Fixpoint elements (fuel : nat) (s : string) (acc : list string)
  : result (list string * string) :=
  match fuel with
  | O => failed
  | S fuel' =>
      match stringValue s EmptyString with
      | failed => failed
      | ok (e, rest) =>
          match skipSpace rest with
          | String c rest' =>
              if byteVal c =? 44 then elements fuel' (skipSpace rest') (acc ++ [e])
              else if byteVal c =? 93 then ok (acc ++ [e], rest')
              else failed
          | EmptyString => failed
          end
      end
  end.

(** [json.Unmarshal(data, &v)] for a nil slice of strings [v]: an
    array of strings (a [null] element is the empty string), or [null]
    for the nil slice. *)
Definition Unmarshal_strings (data : string) : result (slice string) :=
  match skipSpace data with
  | String c rest =>
      if byteVal c =? 91 then
        match skipSpace rest with
        | EmptyString => failed
        | String d rest' as body =>
            if byteVal d =? 93 then
              if atEnd rest' then ok (Some []) else failed
            else
              match elements (String.length body) body [] with
              | ok (l, tail) => if atEnd tail then ok (Some l) else failed
              | failed => failed
              end
        end
      else if strings.HasPrefix (String c rest) "null" then
        if atEnd (dropBytes 4 (String c rest)) then ok None else failed
      else failed
  | EmptyString => failed
  end.

End json.

(** ** models.go: [StringOrArray] *)

(** [type StringOrArray []string]. *)
Definition StringOrArray : Type := slice string.

(** [UnmarshalJSON]: the new value of the receiver, or the error, in
    which case the receiver keeps its value. *)
Definition UnmarshalJSON (data : string) : result StringOrArray :=
  if (1 <? String.length data)%nat && (byteAt data 0 =? 91) then
    match json.Unmarshal_strings data with
    | failed => failed
    | ok obj => ok obj
    end
  else
    match json.Unmarshal_string data EmptyString with
    | failed => failed
    | ok obj => ok (Some [obj])
    end.

(** [MarshalJSON]; the error it returns is always nil. *)
Definition MarshalJSON (s : StringOrArray) : string :=
  match s with
  | Some [only] => json.Marshal_string only
  | _ => json.Marshal_strings s
  end.

(** ** Declarations from outside the files at hand

    The error body type [HTTPErrorResponse] with its two methods and
    the query keys of package [shared/constant] belong to the repository
    but are declared in files that are not part of the sources embedded
    here; they are taken as parameters, together with the library types
    the client only passes around: [time.Time], [float64], the dynamic
    values of [interface{}] fields, [http.Cookie] and the span context of
    [opentracing]. *)
Class Extern : Type := {
  HTTPErrorResponse : Type;
  HTTPErrorResponse_zero : HTTPErrorResponse;
  (** [e.NotEmpty()] *)
  NotEmpty : HTTPErrorResponse -> bool;
  (** [e.String()], which [fmt] uses to render [e] under [%s] *)
  HTTPErrorResponse_String : HTTPErrorResponse -> string;
  (** [constant.MobileKey], [constant.BusinessCodeKey] *)
  MobileKey : string;
  BusinessCodeKey : string;
  Time : Type;
  Time_zero : Time;
  float64 : Type;
  any : Type;
  Cookie : Type;
  SpanContext : Type
}.

(** [http.Header] and [url.Values]: [map[string][]string]. *)
Abbreviation Header := (gmap string (list string)).
Abbreviation Values := (gmap string (list string)).

Section Model.
Context {X : Extern}.

(** ** token.go *)

Record JWT : Type := mkJWT {
  AccessToken : string;
  RefreshToken : string;
  ExpiresAt : Time
}.

(** ** models.go: the data-transfer records *)

(** A pointer field ([*int64], [*string]) is an [option]; an
    [interface{}] field holds [None] for nil. *)
Record CreateCustomerRequest : Type := mkCreateCustomerRequest {
  BusName : string;
  ProvinceID : option Z;
  CityID : option Z;
  Email : option string;
  Mobile : option string;
  PhoneNo : option string;
  Name : option string;
  Family : option string;
  NationalCode : option Z;
  BirthDate : option string;
  Sexuality : option string;
  RealOrFinancial : option Z;
  Address : option string;
  FinCode : option Z;
  IDNo : option Z;
  RegisterNumber : option Z;
  BusinessCategoryID : option Z
}.

Record CreateCustomerResponse : Type := mkCreateCustomerResponse {
  BusinessCode : string;
  BusinessID : string;
  Existed : bool
}.

Record AddSub : Type := mkAddSub {
  AddSubID : Z;
  TASAmount : Z
}.

Record Data : Type := mkData {
  Data_TransactionID : option any;
  Data_BusinessID : Z;
  DocAliasID : Z;
  TransStateID : Z;
  FactorTypeID : Z;
  CalcTaxAndToll : Z;
  TransDiscountAmount : Z;
  TransDiscountPercent : float64;
  DepartmentID : Z;
  SettlementID : Z;
  Description : string
}.

Record CreateTransactionRequest : Type := mkCreateTransactionRequest {
  Request_Data : Data;
  Items : slice (list (string * option Z));
  Request_AddSub : slice AddSub
}.

Record Datum : Type := mkDatum {
  TransactionID : Z;
  TransNumber : Z;
  TransLineID : Z;
  ItemID : Z
}.

Record CreateTransactionResponse : Type := mkCreateTransactionResponse {
  Transaction_Data : slice Datum;
  Transaction_Error : option any
}.

Record CreateServiceRequest : Type := mkCreateServiceRequest {
  Request_ServiceName : string;
  ServiceCode : string;
  Request_ItemCategoryID : Z;
  IAGroupID : Z
}.

Record CreateServiceResponse : Type := mkCreateServiceResponse {
  ServiceName : string;
  ItemCategoryID : Z
}.

(** [CustomTime] embeds a [time.Time]. *)
Record CustomTime : Type := mkCustomTime {
  CustomTime_Time : Time
}.

(** [Datum2], the customer record; its fields carry the prefix
    [Datum2_] here, as several share their names with fields of the
    request records. *)
Record Datum2 : Type := mkDatum2 {
  Datum2_RowNumber : string;
  Datum2_BusinessID : string;
  Datum2_BusinessCode : string;
  Datum2_BusinessName : string;
  Datum2_Address : string;
  Datum2_PhoneNo : string;
  Datum2_FinCode : string;
  Datum2_Mobile : string;
  Datum2_Fax : string;
  Datum2_PriceLevelID : string;
  Datum2_DefaultDiscount : Z;
  Datum2_BusinessCategoryID : string;
  Datum2_AccID : string;
  Datum2_PostalCode : string;
  Datum2_GeoRegionID : string;
  Datum2_DeliveryRegionID : string;
  Datum2_DefaultSettlementID : string;
  Datum2_WithoutCredit : string;
  Datum2_County : string;
  Datum2_RegisterNumber : string;
  Datum2_LatinName : string;
  Datum2_BusinessActivity : string;
  Datum2_BusDescription : string;
  Datum2_InActive : string;
  Datum2_Name : string;
  Datum2_Family : string;
  Datum2_FatherName : string;
  Datum2_NationalCode : string;
  Datum2_IDNo : string;
  Datum2_BirthPlace : string;
  Datum2_BankID : string;
  Datum2_AccountType : string;
  Datum2_AccountNo : string;
  Datum2_Sexuality : string;
  Datum2_Creditable : string;
  Datum2_ProvinceID : string;
  Datum2_CityID : string;
  Datum2_TaxCityCode : string;
  Datum2_TaxProvincesCode : string;
  Datum2_PerCityCode : string;
  Datum2_Email : string;
  Datum2_WebSite : string;
  Datum2_RelatedUserID : string;
  Datum2_CreatorUserID : string;
  Datum2_CreationDate : option CustomTime;
  Datum2_CardNumber : string;
  Datum2_CardSerial : string;
  Datum2_RepresentorCode : string;
  Datum2_RepresentorID : string;
  Datum2_CheckCredit : Z;
  Datum2_UnCashCredit : Z;
  Datum2_ModificationDate : option CustomTime;
  Datum2_IsCustomer : string;
  Datum2_IsVendor : string;
  Datum2_IsSaleManager : string;
  Datum2_IsRepresentor : string;
  Datum2_IsDeliveryManager : string;
  Datum2_RealOrFinancial : string
}.

Record GetCustomerResponse : Type := mkGetCustomerResponse {
  Customer_Data : slice Datum2;
  Customer_Error : option any
}.

(** The zero values that [var x T] and [&T{}] allocate. *)
Definition JWT_zero : JWT := mkJWT "" "" Time_zero.
Definition CreateCustomerResponse_zero : CreateCustomerResponse :=
  mkCreateCustomerResponse "" "" false.
Definition CreateTransactionResponse_zero : CreateTransactionResponse :=
  mkCreateTransactionResponse None None.
Definition CreateServiceResponse_zero : CreateServiceResponse :=
  mkCreateServiceResponse "" 0.
Definition GetCustomerResponse_zero : GetCustomerResponse :=
  mkGetCustomerResponse None None.

(** ** The heap

    The values the client takes the address of: the result containers
    it hands to the transport and returns to its caller. *)
Inductive Value : Type :=
| VJWT (v : JWT)
| VCreateCustomerResponse (v : CreateCustomerResponse)
| VCreateTransactionResponse (v : CreateTransactionResponse)
| VCreateServiceResponse (v : CreateServiceResponse)
| VGetCustomerResponse (v : GetCustomerResponse).

(** [reflect.New(reflect.TypeOf(v))]: the zero value of [v]'s type. *)
Definition zeroOf (v : Value) : Value :=
  match v with
  | VJWT _ => VJWT JWT_zero
  | VCreateCustomerResponse _ => VCreateCustomerResponse CreateCustomerResponse_zero
  | VCreateTransactionResponse _ =>
      VCreateTransactionResponse CreateTransactionResponse_zero
  | VCreateServiceResponse _ => VCreateServiceResponse CreateServiceResponse_zero
  | VGetCustomerResponse _ => VGetCustomerResponse GetCustomerResponse_zero
  end.

Definition loc : Type := nat.
Definition Heap : Type := list Value.

(** Allocation of a fresh variable holding [v]. *)
Definition alloc (v : Value) (h : list Value) : loc * Heap :=
  (List.length h, h ++ [v]).

(** [*p]. *)
Definition deref (h : list Value) (p : nat) : option Value := h !! p.

(** [*p = v]. *)
Definition store (p : nat) (v : Value) (h : list Value) : Heap := <[p := v]> h.

(** The state of an operation: the heap, and a panic as an outcome. *)
Definition M (A : Type) : Type := Heap -> Outcome (A * Heap).

Definition ret {A : Type} (a : A) : M A := fun h => Ret (a, h).

Definition bind {A B : Type} (m : M A) (k : A -> M B) : M B :=
  fun h =>
    match m h with
    | Ret (a, h') => k a h'
    | Panic reason => Panic reason
    end.

Definition liftOutcome {A : Type} (o : Outcome A) : M A :=
  fun h =>
    match o with
    | Ret a => Ret (a, h)
    | Panic reason => Panic reason
    end.

(** [var x T] or [new(T)], holding [v]. *)
Definition newVar (v : Value) : M loc :=
  fun h => Ret (alloc v h).

(** Reading the variable at [p]. *)
Definition load (p : loc) : M Value :=
  fun h =>
    match deref h p with
    | Some v => Ret (v, h)
    | None => Panic "invalid memory address or nil pointer dereference"
    end.

(** ** net/http: header keys *)

Definition isLower (c : ascii) : bool :=
  let n := N_of_ascii c in (97 <=? n)%N && (n <=? 122)%N.

Definition isUpper (c : ascii) : bool :=
  let n := N_of_ascii c in (65 <=? n)%N && (n <=? 90)%N.

Definition isDigit (c : ascii) : bool :=
  let n := N_of_ascii c in (48 <=? n)%N && (n <=? 57)%N.

(** [textproto.validHeaderFieldByte]: the token bytes of RFC 7230. *)
Definition validHeaderFieldByte (c : ascii) : bool :=
  isLower c || isUpper c || isDigit c || strings.inCutset c "!#$%&'*+-.^_`|~".

Fixpoint allValidHeaderFieldBytes (s : string) : bool :=
  match s with
  | EmptyString => true
  | String c s' => validHeaderFieldByte c && allValidHeaderFieldBytes s'
  end.

(** The canonicalising loop: upper case for the first letter and for a
    letter after a dash, lower case for the others. *)
Fixpoint canonicalize (upper : bool) (s : string) : string :=
  match s with
  | EmptyString => EmptyString
  | String c s' =>
      let c' :=
        if upper && isLower c then ascii_of_N (N_of_ascii c - 32)
        else if negb upper && isUpper c then ascii_of_N (N_of_ascii c + 32)
        else c in
      String c' (canonicalize (Ascii.eqb c' "-") s')
  end.

(** [textproto.CanonicalMIMEHeaderKey]: a key with a byte that is not a
    token byte is left as it is. *)
Definition CanonicalMIMEHeaderKey (s : string) : string :=
  if allValidHeaderFieldBytes s then canonicalize true s else s.

(** [http.Header.Set]. *)
Definition Header_Set (h : gmap string (list string)) (key value : string)
  : Header :=
  <[CanonicalMIMEHeaderKey key := [value]]> h.

(** [url.Values.Set]. *)
Definition Values_Set (v : gmap string (list string)) (key value : string)
  : Values :=
  <[key := [value]]> v.

(** ** opentracing *)

(** A tracer, through the one method the client calls:
    [Inject(sm, opentracing.HTTPHeaders, carrier)] writes into the
    carrier, a view of the request's own header map, and returns an
    error. *)
Record Tracer : Type := mkTracer {
  Inject : SpanContext -> Header -> Header * error
}.

Record Span : Type := mkSpan {
  (** [span.Context()] *)
  Span_Context : SpanContext
}.

(** A [context.Context], through the two lookups the client makes. *)
Record Ctx : Type := mkCtx {
  (** [opentracing.SpanFromContext(ctx)] *)
  SpanFromContext : option Span;
  (** [ctx.Value(tracerContextKey).(opentracing.Tracer)]: [None] when the
      key is unset or holds no tracer *)
  tracerValue : option Tracer
}.

(** ** resty *)

(** What [SetBody] receives. *)
Inductive BodyValue : Type :=
| BodyCreateCustomerRequest (v : CreateCustomerRequest)
| BodyCreateTransactionRequest (v : CreateTransactionRequest)
| BodyCreateServiceRequest (v : CreateServiceRequest).

(** A [*resty.Request], through the fields the client sets. [Result] is
    the pointer the transport decodes a successful body into; [Error]
    is the error container, held by value here. *)
Record Request : Type := mkRequest {
  Request_ctx : option Ctx;
  Method : string;
  URL : string;
  Token : string;
  Request_Header : Header;
  QueryParam : Values;
  Cookies : list Cookie;
  Body : option BodyValue;
  Result : option loc;
  Error : option HTTPErrorResponse
}.

(** [client.R()]: a request with nothing set. *)
Definition R : Request :=
  mkRequest None "" "" "" ∅ ∅ [] None None None.

Definition SetContext (ctx : Ctx) (r : Request) : Request :=
  mkRequest (Some ctx) (Method r) (URL r) (Token r) (Request_Header r)
    (QueryParam r) (Cookies r) (Body r) (Result r) (Error r).

(** [SetError(&err)]. *)
Definition SetError (err : HTTPErrorResponse) (r : Request) : Request :=
  mkRequest (Request_ctx r) (Method r) (URL r) (Token r) (Request_Header r)
    (QueryParam r) (Cookies r) (Body r) (Result r) (Some err).

Definition SetAuthToken (token : string) (r : Request) : Request :=
  mkRequest (Request_ctx r) (Method r) (URL r) token (Request_Header r)
    (QueryParam r) (Cookies r) (Body r) (Result r) (Error r).

Definition withHeader (hdr : Header) (r : Request) : Request :=
  mkRequest (Request_ctx r) (Method r) (URL r) (Token r) hdr
    (QueryParam r) (Cookies r) (Body r) (Result r) (Error r).

(** [SetHeader]: [r.Header.Set(header, value)]. *)
Definition SetHeader (header value : string) (r : Request) : Request :=
  withHeader (Header_Set (Request_Header r) header value) r.

(** [SetHeaders]: [SetHeader] for every entry of the map, here the
    entries of a map literal with distinct keys. *)
Definition SetHeaders (headers : list (string * string)) (r : Request) : Request :=
  fold_left (fun r kv => SetHeader (fst kv) (snd kv) r) headers r.

(** [SetQueryParam]: [r.QueryParam.Set(param, value)]. *)
Definition SetQueryParam (param value : string) (r : Request) : Request :=
  mkRequest (Request_ctx r) (Method r) (URL r) (Token r) (Request_Header r)
    (Values_Set (QueryParam r) param value) (Cookies r) (Body r) (Result r)
    (Error r).

Definition SetQueryParams (params : list (string * string)) (r : Request) : Request :=
  fold_left (fun r kv => SetQueryParam (fst kv) (snd kv) r) params r.

(** [SetCookie]: [r.Cookies = append(r.Cookies, hc)]. *)
Definition SetCookie (hc : Cookie) (r : Request) : Request :=
  mkRequest (Request_ctx r) (Method r) (URL r) (Token r) (Request_Header r)
    (QueryParam r) (Cookies r ++ [hc]) (Body r) (Result r) (Error r).

Definition SetBody (body : BodyValue) (r : Request) : Request :=
  mkRequest (Request_ctx r) (Method r) (URL r) (Token r) (Request_Header r)
    (QueryParam r) (Cookies r) (Some body) (Result r) (Error r).

(** The argument of [SetResult]: a pointer, or a value passed by copy. *)
Inductive ResultArg : Type :=
| ByPointer (p : loc)
| ByValue (v : Value).

(** [SetResult(res)]: [r.Result = getPointer(res)]. A pointer is kept;
    for a value, [getPointer] allocates a new zero value of its type
    ([reflect.New]) and keeps the pointer to that. *)
Definition withResult (p : loc) (r : Request) : Request :=
  mkRequest (Request_ctx r) (Method r) (URL r) (Token r) (Request_Header r)
    (QueryParam r) (Cookies r) (Body r) (Some p) (Error r).

Definition SetResult (res : ResultArg) (r : Request) : M Request :=
  bind
    match res with
    | ByPointer p => ret p
    | ByValue v => newVar (zeroOf v)
    end
    (fun p => ret (withResult p r)).

(** What [resp.Error()] returns, an [interface{}]: nil, a
    [*HTTPErrorResponse], or something of another type. *)
Inductive ErrorValue : Type :=
| ErrorNil
| ErrorHTTP (e : HTTPErrorResponse)
| ErrorOther.

(** A [*resty.Response], through its accessors. *)
Record Response : Type := mkResponse {
  (** [resp.StatusCode()] *)
  StatusCode : Z;
  (** [resp.Status()], the status line such as "500 Internal Server Error" *)
  Status : string;
  (** [resp.Error()] *)
  Response_Error : ErrorValue;
  (** [resp.String()], the body as a string *)
  Response_String : string;
  (** [resp.Cookies()] *)
  Response_Cookies : slice Cookie
}.

(** [resp.IsError()]: [r.StatusCode() > 399]. *)
Definition IsError (resp : Response) : bool := 399 <? StatusCode resp.

(** A [*resty.Client]: the whole of [Execute] behind it (hooks, retries,
    the network, the decoding of the body into the request's result or
    error container) is one function of the request and the heap. *)
Record resty_Client : Type := mkClient {
  Execute : Request -> Heap -> Heap * (option Response * error)
}.

Definition withMethodURL (method url : string) (r : Request) : Request :=
  mkRequest (Request_ctx r) method url (Token r) (Request_Header r)
    (QueryParam r) (Cookies r) (Body r) (Result r) (Error r).

(** [r.Get(url)] and [r.Post(url)] on a request of client [c]. *)
Definition Get (c : resty_Client) (url : string) (r : Request)
  : M (option Response * error) :=
  fun h => let '(h', res) := Execute c (withMethodURL "GET" url r) h in Ret (res, h').

Definition Post (c : resty_Client) (url : string) (r : Request)
  : M (option Response * error) :=
  fun h => let '(h', res) := Execute c (withMethodURL "POST" url r) h in Ret (res, h').

(** ** The error mapper (identical in both versions of the client) *)

(** [fmt.Sprintf("%s: %s", status, e)]. *)
Definition Sprintf_status_error (status : string) (e : HTTPErrorResponse) : string :=
  status +:+ ": " +:+ HTTPErrorResponse_String e.

Definition checkForError (resp : option Response) (err : error)
    (errMessage : string) : option APIError :=
  match err with
  | Some text =>
      Some (mkAPIError 0 (errors.Wrap_Error text errMessage) (ParseAPIErrType err))
  | None =>
      match resp with
      | None => Some (mkAPIError 0 "empty response" (ParseAPIErrType err))
      | Some resp =>
          if IsError resp then
            let msg :=
              match Response_Error resp with
              | ErrorHTTP e =>
                  if NotEmpty e then Sprintf_status_error (Status resp) e
                  else Status resp
              | _ => Status resp
              end in
            Some (mkAPIError (StatusCode resp) msg (ParseAPIErrType err))
          else None
      end
  end.

(** ** Tracing headers (identical in both versions of the client) *)

(** The state of the process that the client reads: the tracer
    registered with [opentracing] ([opentracing.GlobalTracer()]) and the
    client that [resty.New()] builds. *)
Class Process : Type := {
  GlobalTracer : Tracer;
  resty_New : resty_Client
}.

Context {P : Process}.

Definition injectTracingHeaders (ctx : Ctx) (req : Request) : Request :=
  match SpanFromContext ctx with
  | None => req
  | Some span =>
      let tracer :=
        match tracerValue ctx with
        | Some tracer => tracer
        | None => GlobalTracer
        end in
      let '(hdr, err) := Inject tracer (Span_Context span) (Request_Header req) in
      let req := withHeader hdr req in
      match err with
      | Some _ => req
      | None => req
      end
  end.

(** ** The client (version 2) *)

Record Config : Type := mkConfig {
  GetServiceTokenEndpoint : string;
  CreateCustomerEndpoint : string;
  CreateTransactionEndpoint : string;
  CreateServiceEndpoint : string;
  GetCustomerEndpoint : string
}.

Record GoArpa : Type := mkGoArpa {
  basePath : string;
  restyClient : resty_Client;
  Config_ : Config
}.

Definition adminClientID : string := "admin-cli".
Definition urlSeparator : string := "/".

Definition makeURL (path : list string) : string :=
  strings.Join path urlSeparator.

(** Assignments to the fields of [c.Config]. *)
Definition setConfig (f : Config -> Config) (c : GoArpa) : GoArpa :=
  mkGoArpa (basePath c) (restyClient c) (f (Config_ c)).

Definition setGetServiceTokenEndpoint (v : string) : GoArpa -> GoArpa :=
  setConfig (fun k => mkConfig v (CreateCustomerEndpoint k)
    (CreateTransactionEndpoint k) (CreateServiceEndpoint k) (GetCustomerEndpoint k)).

Definition setCreateCustomerEndpoint (v : string) : GoArpa -> GoArpa :=
  setConfig (fun k => mkConfig (GetServiceTokenEndpoint k) v
    (CreateTransactionEndpoint k) (CreateServiceEndpoint k) (GetCustomerEndpoint k)).

Definition setCreateTransactionEndpoint (v : string) : GoArpa -> GoArpa :=
  setConfig (fun k => mkConfig (GetServiceTokenEndpoint k) (CreateCustomerEndpoint k)
    v (CreateServiceEndpoint k) (GetCustomerEndpoint k)).

Definition setCreateServiceEndpoint (v : string) : GoArpa -> GoArpa :=
  setConfig (fun k => mkConfig (GetServiceTokenEndpoint k) (CreateCustomerEndpoint k)
    (CreateTransactionEndpoint k) v (GetCustomerEndpoint k)).

Definition setGetCustomerEndpoint (v : string) : GoArpa -> GoArpa :=
  setConfig (fun k => mkConfig (GetServiceTokenEndpoint k) (CreateCustomerEndpoint k)
    (CreateTransactionEndpoint k) (CreateServiceEndpoint k) v).

(** [GetRequest]: a request for calling endpoints. *)
Definition GetRequest (g : GoArpa) (ctx : Ctx) : Request :=
  let err := HTTPErrorResponse_zero in
  injectTracingHeaders ctx (SetError err (SetContext ctx R)).

Definition GetRequestWithBearerAuthNoCache (g : GoArpa) (ctx : Ctx)
    (token : string) : Request :=
  SetHeader "Cache-Control" "no-cache"
    (SetHeader "Content-Type" "application/json"
       (SetAuthToken token (GetRequest g ctx))).

Definition GetRequestWithBearerAuth (g : GoArpa) (ctx : Ctx) (token : string)
  : Request :=
  SetHeader "Content-Type" "application/json"
    (SetAuthToken token (GetRequest g ctx)).

(** [cookie[0]] is evaluated without a check of the length: on a
    collection without elements it panics, and no request is returned. *)
Definition GetRequestWithBearerAuthWithCookie (g : GoArpa) (ctx : Ctx)
    (token : string) (cookie : slice Cookie) : Outcome Request :=
  let req := SetAuthToken token (GetRequest g ctx) in
  match index0 cookie with
  | Panic reason => Panic reason
  | Ret first => Ret (SetHeader "Content-Type" "application/json" (SetCookie first req))
  end.

(** The zero value of [c.Config] in the composite literal. *)
Definition Config_zero : Config := mkConfig "" "" "" "" "".

(** The defaults that [NewClient] sets before it runs the options. *)
Definition NewClient_defaults (basePath : string) : GoArpa :=
  let c := mkGoArpa (strings.TrimRight basePath urlSeparator) resty_New Config_zero in
  let c := setGetServiceTokenEndpoint (makeURL ["serv"; "token"; "GetServiceToken"]) c in
  let c := setCreateCustomerEndpoint (makeURL ["serv"; "api"; "PostBussiness"]) c in
  let c := setCreateTransactionEndpoint (makeURL ["serv"; "api"; "NewTransaction"]) c in
  let c := setCreateServiceEndpoint (makeURL ["serv"; "api"; "PostService"]) c in
  setGetCustomerEndpoint (makeURL ["serv"; "api"; "GetBusiness"]) c.

(** An option is a function on a pointer to the client: it updates the
    client in place. *)
Definition NewClient (basePath : string) (options : list (GoArpa -> GoArpa))
  : GoArpa :=
  let c := NewClient_defaults basePath in
  fold_left (fun c option => option c) options c.

Definition RestyClient (g : GoArpa) : resty_Client := restyClient g.

Definition SetRestyClient (restyClient : resty_Client) (g : GoArpa) : GoArpa :=
  mkGoArpa (basePath g) restyClient (Config_ g).

Notation "x <- m ;; k" := (bind m (fun x => k))
  (at level 100, m at next level, right associativity).

(** The fixed context strings ([const errMessage]) of the operations. *)
Definition GetAdminToken_errMessage : string := "could not get token".
Definition CreateCustomer_errMessage : string := "could not create customer".
Definition CreateTransaction_errMessage : string := "could not create transaction".
Definition CreateService_errMessage : string := "could not create service".
Definition GetCustomerByMobile_errMessage : string := "could not get customer info".
Definition GetCustomerByBusinessCode_errMessage : string :=
  "could not get customer info".

(** Reading a response that turns out to be nil. *)
Definition nilResponse {A : Type} : M A :=
  liftOutcome (Panic "invalid memory address or nil pointer dereference").

Definition GetAdminToken (g : GoArpa) (ctx : Ctx) (username password : string)
  : M (string * slice Cookie * option APIError) :=
  let errMessage := GetAdminToken_errMessage in
  let req := GetRequest g ctx in
  res <- Get (restyClient g)
           (basePath g +:+ "/" +:+ GetServiceTokenEndpoint (Config_ g) +:+ "?")
           (SetQueryParams [("username", username); ("password", password)] req) ;;
  match checkForError (fst res) (snd res) errMessage with
  | Some err => ret ("", None, Some err)
  | None =>
      match fst res with
      | Some resp => ret (Response_String resp, Response_Cookies resp, None)
      | None => nilResponse
      end
  end.

(** [SetResult(response)] receives a copy of the local variable
    [response]; the function returns the address of the variable. *)
Definition CreateCustomer (g : GoArpa) (ctx : Ctx) (accessToken : string)
    (customer : CreateCustomerRequest) : M (option loc * option APIError) :=
  let errMessage := CreateCustomer_errMessage in
  response <- newVar (VCreateCustomerResponse CreateCustomerResponse_zero) ;;
  copy <- load response ;;
  req <- SetResult (ByValue copy)
           (SetBody (BodyCreateCustomerRequest customer)
              (GetRequestWithBearerAuth g ctx accessToken)) ;;
  res <- Post (restyClient g)
           (basePath g +:+ "/" +:+ CreateCustomerEndpoint (Config_ g)) req ;;
  match checkForError (fst res) (snd res) errMessage with
  | Some err => ret (None, Some err)
  | None => ret (Some response, None)
  end.

Definition CreateTransaction (g : GoArpa) (ctx : Ctx) (accessToken : string)
    (transaction : CreateTransactionRequest) : M (option loc * option APIError) :=
  let errMessage := CreateTransaction_errMessage in
  response <- newVar (VCreateTransactionResponse CreateTransactionResponse_zero) ;;
  copy <- load response ;;
  req <- SetResult (ByValue copy)
           (SetBody (BodyCreateTransactionRequest transaction)
              (GetRequestWithBearerAuth g ctx accessToken)) ;;
  res <- Post (restyClient g)
           (basePath g +:+ "/" +:+ CreateTransactionEndpoint (Config_ g)) req ;;
  match checkForError (fst res) (snd res) errMessage with
  | Some err => ret (None, Some err)
  | None => ret (Some response, None)
  end.

Definition CreateService (g : GoArpa) (ctx : Ctx) (accessToken : string)
    (service : CreateServiceRequest) : M (option loc * option APIError) :=
  let errMessage := CreateService_errMessage in
  response <- newVar (VCreateServiceResponse CreateServiceResponse_zero) ;;
  copy <- load response ;;
  req <- SetResult (ByValue copy)
           (SetBody (BodyCreateServiceRequest service)
              (GetRequestWithBearerAuth g ctx accessToken)) ;;
  res <- Post (restyClient g)
           (basePath g +:+ "/" +:+ CreateServiceEndpoint (Config_ g)) req ;;
  match checkForError (fst res) (snd res) errMessage with
  | Some err => ret (None, Some err)
  | None => ret (Some response, None)
  end.

(** [fmt.Sprintf("%s/%s", a, b)]. *)
Definition Sprintf_path (a b : string) : string := a +:+ "/" +:+ b.

Definition GetCustomerByMobile (g : GoArpa) (ctx : Ctx) (accessToken : string)
    (cookie : slice Cookie) (mobile : string) : M (option loc * option APIError) :=
  let errMessage := GetCustomerByMobile_errMessage in
  result <- newVar (VGetCustomerResponse GetCustomerResponse_zero) ;;
  req <- liftOutcome (GetRequestWithBearerAuthWithCookie g ctx accessToken cookie) ;;
  req <- SetResult (ByPointer result) (SetQueryParam MobileKey mobile req) ;;
  res <- Get (restyClient g)
           (Sprintf_path (basePath g) (GetCustomerEndpoint (Config_ g))) req ;;
  match checkForError (fst res) (snd res) errMessage with
  | Some err => ret (None, Some err)
  | None => ret (Some result, None)
  end.

Definition GetCustomerByBusinessCode (g : GoArpa) (ctx : Ctx)
    (accessToken : string) (cookie : slice Cookie) (businessCode : string)
  : M (option loc * option APIError) :=
  let errMessage := GetCustomerByBusinessCode_errMessage in
  result <- newVar (VGetCustomerResponse GetCustomerResponse_zero) ;;
  req <- liftOutcome (GetRequestWithBearerAuthWithCookie g ctx accessToken cookie) ;;
  req <- SetResult (ByPointer result) (SetQueryParam BusinessCodeKey businessCode req) ;;
  res <- Get (restyClient g)
           (Sprintf_path (basePath g) (GetCustomerEndpoint (Config_ g))) req ;;
  match checkForError (fst res) (snd res) errMessage with
  | Some err => ret (None, Some err)
  | None => ret (Some result, None)
  end.

(** ** The operations as one family *)

Inductive Call : Type :=
| CallGetAdminToken (username password : string)
| CallCreateCustomer (accessToken : string) (customer : CreateCustomerRequest)
| CallCreateTransaction (accessToken : string)
    (transaction : CreateTransactionRequest)
| CallCreateService (accessToken : string) (service : CreateServiceRequest)
| CallGetCustomerByMobile (accessToken : string) (cookie : slice Cookie)
    (mobile : string)
| CallGetCustomerByBusinessCode (accessToken : string) (cookie : slice Cookie)
    (businessCode : string).

(** What an operation returns besides its error. *)
Inductive Returned : Type :=
| ReturnedToken (token : string) (cookies : slice Cookie)
| ReturnedPointer (p : option loc).

Definition returnedPointer (r : option loc * option APIError)
  : Returned * option APIError :=
  (ReturnedPointer (fst r), snd r).

Definition perform (g : GoArpa) (ctx : Ctx) (c : Call)
  : M (Returned * option APIError) :=
  match c with
  | CallGetAdminToken username password =>
      r <- GetAdminToken g ctx username password ;;
      ret (ReturnedToken (fst (fst r)) (snd (fst r)), snd r)
  | CallCreateCustomer accessToken customer =>
      r <- CreateCustomer g ctx accessToken customer ;; ret (returnedPointer r)
  | CallCreateTransaction accessToken transaction =>
      r <- CreateTransaction g ctx accessToken transaction ;; ret (returnedPointer r)
  | CallCreateService accessToken service =>
      r <- CreateService g ctx accessToken service ;; ret (returnedPointer r)
  | CallGetCustomerByMobile accessToken cookie mobile =>
      r <- GetCustomerByMobile g ctx accessToken cookie mobile ;;
      ret (returnedPointer r)
  | CallGetCustomerByBusinessCode accessToken cookie businessCode =>
      r <- GetCustomerByBusinessCode g ctx accessToken cookie businessCode ;;
      ret (returnedPointer r)
  end.

Definition errMessageOf (c : Call) : string :=
  match c with
  | CallGetAdminToken _ _ => GetAdminToken_errMessage
  | CallCreateCustomer _ _ => CreateCustomer_errMessage
  | CallCreateTransaction _ _ => CreateTransaction_errMessage
  | CallCreateService _ _ => CreateService_errMessage
  | CallGetCustomerByMobile _ _ _ => GetCustomerByMobile_errMessage
  | CallGetCustomerByBusinessCode _ _ _ => GetCustomerByBusinessCode_errMessage
  end.

(** The cookie collection of a cookie-bearing call. *)
Definition cookiesOf (c : Call) : option (slice Cookie) :=
  match c with
  | CallGetCustomerByMobile _ cookie _ => Some cookie
  | CallGetCustomerByBusinessCode _ cookie _ => Some cookie
  | _ => None
  end.

(** The request of a call can be built: its cookie collection, if it
    takes one, has a first element. *)
Definition buildable (c : Call) : bool :=
  match cookiesOf c with
  | Some (Some (_ :: _)) => true
  | Some _ => false
  | None => true
  end.

(** Nothing is returned: a nil pointer, or the empty token without
    cookies. *)
Definition isNil (r : Returned) : bool :=
  match r with
  | ReturnedPointer None => true
  | ReturnedToken "" None => true
  | _ => false
  end.

End Model.

(** ** The client (legacy version) *)

Module Legacy.
Section Legacy.
Context {X : Extern} {P : Process}.

Notation "x <- m ;; k" := (bind m (fun x => k))
  (at level 100, m at next level, right associativity).

Record Config : Type := mkConfig {
  GetServiceTokenEndpoint : string
}.

Record GoArpa : Type := mkGoArpa {
  basePath : string;
  restyClient : resty_Client;
  Config_ : Config
}.

Definition makeURL (path : list string) : string :=
  strings.Join path urlSeparator.

Definition GetRequest (g : GoArpa) (ctx : Ctx) : Request :=
  let err := HTTPErrorResponse_zero in
  injectTracingHeaders ctx (SetError err (SetContext ctx R)).

Definition setGetServiceTokenEndpoint (v : string) (c : GoArpa) : GoArpa :=
  mkGoArpa (basePath c) (restyClient c) (mkConfig v).

Definition NewClient_defaults (basePath : string) : GoArpa :=
  let c := mkGoArpa (strings.TrimRight basePath urlSeparator) resty_New (mkConfig "") in
  setGetServiceTokenEndpoint (makeURL ["serv"; "token"; "GetServiceToken"]) c.

Definition NewClient (basePath : string) (options : list (GoArpa -> GoArpa))
  : GoArpa :=
  let c := NewClient_defaults basePath in
  fold_left (fun c option => option c) options c.

Definition AdminAuthenticate_errMessage : string := "could not get token".

Definition AdminAuthenticate (g : GoArpa) (ctx : Ctx) (username password : string)
  : M (option loc * option APIError) :=
  let errMessage := AdminAuthenticate_errMessage in
  token <- newVar (VJWT JWT_zero) ;;
  let req := GetRequest g ctx in
  req <- SetResult (ByPointer token)
           (SetHeaders [("username", username); ("password", password)] req) ;;
  res <- Post (restyClient g)
           (basePath g +:+ "/" +:+ GetServiceTokenEndpoint (Config_ g)) req ;;
  match checkForError (fst res) (snd res) errMessage with
  | Some err => ret (None, Some err)
  | None => ret (Some token, None)
  end.

End Legacy.
End Legacy.

(** ** Sample instances: concrete parameters to run the definitions on *)

Module Sample.

(** An error body with one member, ["error"]. *)
Definition extern : Extern := {|
  HTTPErrorResponse := string;
  HTTPErrorResponse_zero := "";
  NotEmpty := fun e => negb (String.eqb e "");
  HTTPErrorResponse_String := fun e => e;
  MobileKey := "Mobile";
  BusinessCodeKey := "BusinessCode";
  Time := Z;
  Time_zero := 0;
  float64 := Z;
  any := string;
  Cookie := string * string;
  SpanContext := string
|}.

#[local] Existing Instance extern.

(** A tracer that injects nothing and reports no error. *)
Definition noopTracer : Tracer := mkTracer (fun _ hdr => (hdr, None)).

(** A tracer that refuses every span context and leaves the carrier as
    it is. *)
Definition refusingTracer : Tracer :=
  mkTracer (fun _ hdr =>
    (hdr, Some "opentracing: SpanContext type incompatible with tracer")).

(** A tracer that writes its header and then reports a failure. *)
Definition leakyTracer : Tracer :=
  mkTracer (fun sc hdr =>
    (<["Trace-Id" := [sc]]> hdr, Some "carrier: baggage rejected")).

(** A client whose every request fails before it is sent, as a failing
    [OnBeforeRequest] hook makes it: no response, an error. *)
Definition failingClient (text : string) : resty_Client :=
  mkClient (fun _ h => (h, (None, Some text))).

Definition process : Process :=
  {| GlobalTracer := noopTracer; resty_New := failingClient "no server" |}.

#[local] Existing Instance process.

(** The context without span or tracer, and one with a span. *)
Definition background : Ctx := mkCtx None None.

Definition tracedWith (tracer : Tracer) : Ctx :=
  mkCtx (Some (mkSpan "span-1")) (Some tracer).

(** A request as the client builds it, with nothing set. *)
Definition freshRequest : Request := R.

Definition host : string := "https://arpa.example/".

(** A client of version 2 and one of the legacy version, on a given
    resty client. *)
Definition clientOn (c : resty_Client) : GoArpa :=
  SetRestyClient c (NewClient host []).

Definition legacyClientOn (c : resty_Client) : Legacy.GoArpa :=
  Legacy.mkGoArpa (Legacy.basePath (Legacy.NewClient host [])) c
    (Legacy.Config_ (Legacy.NewClient host [])).


(** A server for the round trip of the specification: it answers the
    POST to the create-customer path with status 200 and the body
    [{"BussinesCode":"127013","BussinessID":"42","Existed":false}].
    The resty client decodes that body into the result container of the
    request, if one is registered; [decodedCustomer] is what the body
    decodes to under the JSON names of [CreateCustomerResponse]. *)
Definition quoted (s : string) : string :=
  String "034"%char s +:+ String "034"%char EmptyString.

Definition createCustomerBody : string :=
  "{" +:+ quoted "BussinesCode" +:+ ":" +:+ quoted "127013" +:+ ","
      +:+ quoted "BussinessID" +:+ ":" +:+ quoted "42" +:+ ","
      +:+ quoted "Existed" +:+ ":false}".

Definition decodedCustomer : CreateCustomerResponse :=
  mkCreateCustomerResponse "127013" "42" false.

Definition notFound : Response :=
  mkResponse 404 "404 Not Found" (ErrorHTTP "") "" (Some []).

Definition createCustomerServer : resty_Client :=
  mkClient (fun req h =>
    if String.eqb (Method req) "POST"
       && String.eqb (URL req) "https://arpa.example/serv/api/PostBussiness"
    then
      (match Result req with
       | Some p => store p (VCreateCustomerResponse decodedCustomer) h
       | None => h
       end,
       (Some (mkResponse 200 "200 OK" ErrorNil createCustomerBody (Some [])), None))
    else (h, (Some notFound, None))).

Definition customer : CreateCustomerRequest :=
  mkCreateCustomerRequest "Acme" None None None (Some "09128575183") None
    None None None None None None None None None None None.

(** A token server for the legacy client: it answers the POST to the
    token endpoint with a token, which the resty client decodes into
    the result container. *)
Definition decodedToken : JWT := mkJWT "access-1" "refresh-1" 1767225600.

Definition tokenServer : resty_Client :=
  mkClient (fun req h =>
    if String.eqb (Method req) "POST"
       && String.eqb (URL req) "https://arpa.example/serv/token/GetServiceToken"
    then
      (match Result req with
       | Some p => store p (VJWT decodedToken) h
       | None => h
       end,
       (Some (mkResponse 200 "200 OK" ErrorNil "" (Some [])), None))
    else (h, (Some notFound, None))).


End Sample.

(** ** The contract of the error mapper, in the words of its specification *)

Inductive Branch : Type :=
| Success
| TransportFailure
| EmptyResponse
| HTTPErrorStatus.

(** The message of an HTTP error: the status line, with the rendering
    of the structured error body when one was decoded and is not empty. *)
Definition statusMessage {X : Extern} (resp : Response) : string :=
  match Response_Error resp with
  | ErrorHTTP e =>
      if NotEmpty e then Status resp +:+ ": " +:+ HTTPErrorResponse_String e
      else Status resp
  | ErrorNil | ErrorOther => Status resp
  end.

Inductive ErrorMapper_spec {X : Extern}
  : Branch -> option Response -> error -> string -> option APIError -> Prop :=
| spec_success (resp : Response) (errMessage : string) :
    IsError resp = false ->
    ErrorMapper_spec Success (Some resp) None errMessage None
| spec_transport (resp : option Response) (text errMessage : string) :
    ErrorMapper_spec TransportFailure resp (Some text) errMessage
      (Some (mkAPIError 0 (errMessage +:+ ": " +:+ text)
               (if strings.Contains text "invalid_grant"
                then APIErrTypeInvalidGrant else APIErrTypeUnknown)))
| spec_empty (errMessage : string) :
    ErrorMapper_spec EmptyResponse None None errMessage
      (Some (mkAPIError 0 "empty response" APIErrTypeUnknown))
| spec_http (resp : Response) (errMessage : string) :
    IsError resp = true ->
    ErrorMapper_spec HTTPErrorStatus (Some resp) None errMessage
      (Some (mkAPIError (StatusCode resp) (statusMessage resp) APIErrTypeUnknown)).

(** ** The end of every operation *)

(** How an operation ends once the client has answered. *)
Definition finish {X : Extern} {A : Type} (errMessage : string) (nothing : A)
    (result : option Response -> Outcome A)
    (answer : Heap * (option Response * error)) : Outcome ((A * option APIError) * Heap) :=
  match checkForError (fst (snd answer)) (snd (snd answer)) errMessage with
  | Some e => Ret ((nothing, Some e), fst answer)
  | None =>
      match result (fst (snd answer)) with
      | Ret a => Ret ((a, None), fst answer)
      | Panic reason => Panic reason
      end
  end.

(** ** Trimming, in words *)

(** Every byte of [s] is [c]. *)
Fixpoint allBytes (c : ascii) (s : string) : bool :=
  match s with
  | EmptyString => true
  | String d s' => Ascii.eqb d c && allBytes c s'
  end.

Fixpoint lastByte (s : string) : option ascii :=
  match s with
  | EmptyString => None
  | String d EmptyString => Some d
  | String _ s' => lastByte s'
  end.

(** [t] is [s] with its trailing bytes [c] removed: what was cut off
    consists of [c] only, and [t] does not end in [c]. *)
Definition trimmedOf (c : ascii) (s t : string) : Prop :=
  (exists suffix, s = t +:+ suffix /\ allBytes c suffix = true)
  /\ lastByte t <> Some c.

(** ** Clients that write through the result pointer only *)

(** What a resty client does to the heap: it decodes the body into the
    result container of the request and touches no other variable. *)
Definition writesOnlyResult {X : Extern} (c : resty_Client) : Prop :=
  forall req h h' answer,
    Execute c req h = (h', answer) ->
    forall p, Result req <> Some p -> deref h' p = deref h p.

(** ** models.go: [EnforcedString] *)

Module bytes.

(** [bytes.ReplaceAll(s, old, new)] for a pattern [old] that is not
    empty, which is the case at both calls in [models.go]: the
    occurrences of [old] are found from the left, each search starting
    behind the occurrence before it. Each turn consumes at least one byte
    of [s]; the fuel bounds the turns. *)
Fixpoint replaceFrom (fuel : nat) (s old new : string) : string :=
  match fuel with
  | O => s
  | S fuel' =>
      match s with
      | EmptyString => EmptyString
      | String c rest =>
          if strings.HasPrefix s old then
            new +:+ replaceFrom fuel' (dropBytes (String.length old) s) old new
          else String c (replaceFrom fuel' rest old new)
      end
  end.

Definition ReplaceAll (s old new : string) : string :=
  replaceFrom (String.length s) s old new.

End bytes.

(** [type EnforcedString string]. *)
Definition EnforcedString : Type := string.

(** The three patterns of [UnmarshalJSON]: a quote, an escaped quote,
    and an escaped quote behind a backslash. *)
Definition quoteText : string := String json.quote EmptyString.
Definition escapedQuote : string := String json.backslash quoteText.
Definition doubleEscapedQuote : string := String json.backslash escapedQuote.

(** [EnforcedString.UnmarshalJSON]: the new value of the receiver and
    whether the error returned is nil. The index expression [data[0]]
    panics on empty data. Data that does not begin with a quote has its
    quotes escaped and is wrapped in quotes before it is decoded. The
    receiver is assigned whatever the decoder left in [val], which is the
    empty string when the decoder fails. *)
Definition EnforcedString_UnmarshalJSON (data : string)
  : Outcome (EnforcedString * bool) :=
  match data with
  | EmptyString => Panic "index out of range [0] with length 0"
  | String c _ =>
      let data :=
        if negb (byteVal c =? 34) then
          let data := bytes.ReplaceAll data quoteText escapedQuote in
          let data := bytes.ReplaceAll data doubleEscapedQuote escapedQuote in
          (quoteText +:+ data) +:+ quoteText
        else data in
      match json.Unmarshal_string data EmptyString with
      | ok val => Ret (val, true)
      | failed => Ret (EmptyString, false)
      end
  end.

(** [EnforcedString.MarshalJSON]; the error it returns is always nil. *)
Definition EnforcedString_MarshalJSON (s : EnforcedString) : string :=
  json.Marshal_string s.

(** Every byte of [s] satisfies [p]. *)
Fixpoint everyByte (p : Z -> bool) (s : string) : bool :=
  match s with
  | EmptyString => true
  | String c s' => p (byteVal c) && everyByte p s'
  end.

(** A printable ASCII byte other than the backslash. *)
Definition printable (b : Z) : bool :=
  (32 <=? b) && (b <? 128) && negb (b =? 92).

(** ** models.go: [CustomTime] *)

(** [strings.TrimLeft] and [strings.Trim] for a cut set of ASCII bytes;
    [Trim] cuts the end first and then the start. *)
Fixpoint strings_TrimLeft (s cutset : string) : string :=
  match s with
  | EmptyString => EmptyString
  | String c s' =>
      if strings.inCutset c cutset then strings_TrimLeft s' cutset else s
  end.

Definition strings_Trim (s cutset : string) : string :=
  strings_TrimLeft (strings.TrimRight s cutset) cutset.

Section CustomTime.
Context {X : Extern}.

(** [time.Parse(layout, value)]: a function of its two arguments. *)
Variable time_Parse : string -> string -> Time * error.

(** [fmt.Errorf("failed to parse time: %w", err).Error()]. *)
Definition Errorf_parse (err_text : string) : string :=
  "failed to parse time: " +:+ err_text.

(** [CustomTime.UnmarshalJSON]: the new value of the receiver and the
    error. *)
Definition CustomTime_UnmarshalJSON (ct : CustomTime) (data : string)
  : CustomTime * error :=
  let str := strings_Trim data quoteText in
  match str with
  | EmptyString => (ct, None)
  | String _ _ =>
      match time_Parse "2006-01-02 15:04:05" str with
      | (_, Some text) => (ct, Some (Errorf_parse text))
      | (t, None) => (mkCustomTime t, None)
      end
  end.

End CustomTime.

(** ** client_test.go: the failing hook *)

Module FailRequest.

(** Go's [int] on a 64-bit platform: the result of an operation is
    reduced to the range of the type. *)
Definition int (z : Z) : Z := (z + 2 ^ 63) mod 2 ^ 64 - 2 ^ 63.

(** The variables that the hook of [FailRequest] captures. *)
Record Captured : Type := mkCaptured {
  err : error;
  failN : Z;
  skipN : Z
}.

Section Hook.
Context {X : Extern}.

(** [fmt.Errorf("an error for request: %+v", r).Error()]. *)
Variable Errorf_request : Request -> string.

(** One call of the hook that [FailRequest] installs with
    [OnBeforeRequest]: the captured variables after the call and the
    error returned. *)
Definition hook (v : Captured) (r : Request) : Captured * error :=
  if 0 <? skipN v then
    (mkCaptured (err v) (failN v) (int (skipN v - 1)), None)
  else if failN v =? 0 then (v, None)
  else
    let failN' := int (failN v - 1) in
    let err' :=
      match err v with
      | None => Some (Errorf_request r)
      | Some text => Some text
      end in
    (mkCaptured err' failN' (skipN v), err').

(** The errors that the hook returns for a sequence of requests. *)
Fixpoint answers (v : Captured) (rs : list Request) : list error :=
  match rs with
  | [] => []
  | r :: rs' => let '(v', e) := hook v r in e :: answers v' rs'
  end.

(** The error of every failed request: the one given to [FailRequest],
    or the default one, made of the request at offset [skipN]. *)
Definition failure (v : Captured) (rs : list Request) : error :=
  match err v with
  | Some text => Some text
  | None =>
      match rs !! Z.to_nat (skipN v) with
      | Some r => Some (Errorf_request r)
      | None => None
      end
  end.

End Hook.

End FailRequest.

(** ** Further sample clients *)

Module Scenario.

#[local] Existing Instance Sample.extern.
#[local] Existing Instance Sample.process.

(** A server that answers every request with status 500 and the error
    body [{"error":"unknown_error"}], which the resty client decodes
    into the error container. *)
Definition serverError : Response :=
  mkResponse 500 "500 Internal Server Error" (ErrorHTTP "unknown_error") ""
    (Some []).

Definition failingServer : resty_Client :=
  mkClient (fun _ h => (h, (Some serverError, None))).

(** A token endpoint that refuses the grant: status 400 with the OAuth
    error [invalid_grant] in its body. *)
Definition grantRefused : Response :=
  mkResponse 400 "400 Bad Request" (ErrorHTTP "invalid_grant") "" (Some []).

(** A server that answers every request with status 200 and an empty
    body: nothing is decoded. *)
Definition emptyOK : Response := mkResponse 200 "200 OK" ErrorNil "" (Some []).

Definition silentServer : resty_Client :=
  mkClient (fun _ h => (h, (Some emptyOK, None))).

(** A server that answers the creation of a transaction with one line,
    which the resty client decodes into the result container. *)
Definition decodedTransaction : CreateTransactionResponse :=
  mkCreateTransactionResponse (Some [mkDatum 9001 17 1 650304]) None.

Definition transactionServer : resty_Client :=
  mkClient (fun req h =>
    (match Result req with
     | Some p => store p (VCreateTransactionResponse decodedTransaction) h
     | None => h
     end,
     (Some emptyOK, None))).

Definition transaction : CreateTransactionRequest :=
  mkCreateTransactionRequest
    (mkData None 42 1 1 1 0 0 (0 : float64) 1 1 "order 17")
    (Some [[("ItemID", Some 650304); ("Quantity", Some 2)]])
    (Some [mkAddSub 3 1000]).

(** A time parser that knows one instant and refuses every other
    text. *)
Definition parseTime (layout value : string) : Time * error :=
  if String.eqb value "2024-03-01 10:00:00" then (1709287200, None)
  else (0, Some "cannot parse as 2006").

(** The receiver before the call. *)
Definition earlier : CustomTime := mkCustomTime (X := Sample.extern) 7.

(** Three requests that differ in their token, and the text that
    stands for the rendering of a request. *)
Definition threeRequests : list Request :=
  [SetAuthToken "first" R; SetAuthToken "second" R; SetAuthToken "third" R].

Definition describe (r : Request) : string :=
  "an error for request: " +:+ Token r.

End Scenario.

(** * Properties *)

(** ** Strings *)

Lemma append_nil_l (s : string) : "" +:+ s = s.
Proof. reflexivity. Qed.

Lemma append_cons (c : ascii) (a b : string) :
  String c a +:+ b = String c (a +:+ b).
Proof. reflexivity. Qed.

Lemma append_assoc (a b c : string) : (a +:+ b) +:+ c = a +:+ (b +:+ c).
Proof.
  induction a as [|x a IH]; [reflexivity |].
  rewrite !append_cons. now rewrite IH.
Qed.

Lemma append_empty_r (a : string) : a +:+ "" = a.
Proof.
  induction a as [|x a IH]; [reflexivity |].
  rewrite append_cons. now rewrite IH.
Qed.

Lemma HasPrefix_spec (s prefix : string) :
  strings.HasPrefix s prefix = true <-> exists after, s = prefix +:+ after.
Proof.
  revert s. induction prefix as [|p prefix IH]; intros s; simpl.
  - split; [intros _; now exists s | reflexivity].
  - destruct s as [|c s].
    + split; [discriminate | intros [after Hs]; discriminate].
    + destruct (Ascii.eqb_spec c p) as [->|Hne].
      * rewrite IH. split; intros [after Hs]; exists after.
        -- rewrite append_cons. now rewrite Hs.
        -- rewrite append_cons in Hs. now injection Hs.
      * split; [discriminate |].
        intros [after Hs]. rewrite append_cons in Hs. injection Hs; intros; contradiction.
Qed.

Lemma occurs_in_cons (substr : string) (c : ascii) (s : string) :
  strings.HasPrefix (String c s) substr = false ->
  strings.occurs_in substr (String c s) <-> strings.occurs_in substr s.
Proof.
  intros Hnot. split.
  - intros [before [after Hs]]. destruct before as [|b before].
    + assert (Hp : strings.HasPrefix (String c s) substr = true)
        by (apply HasPrefix_spec; now exists after).
      congruence.
    + rewrite append_cons in Hs. injection Hs; intros Hs' _. now exists before, after.
  - intros [before [after Hs]]. exists (String c before), after.
    rewrite append_cons. now rewrite Hs.
Qed.

Lemma indexFrom_range (i : Z) (s substr : string) :
  strings.indexFrom i s substr = -1 \/ i <= strings.indexFrom i s substr.
Proof.
  revert i. induction s as [|c s IH]; intros i; simpl.
  - destruct (strings.HasPrefix "" substr); [right; lia | now left].
  - destruct (strings.HasPrefix (String c s) substr); [right; lia |].
    destruct (IH (i + 1)) as [->|Hle]; [now left | right; lia].
Qed.

Lemma indexFrom_found (i : Z) (s substr : string) :
  0 <= i ->
  0 <= strings.indexFrom i s substr <-> strings.occurs_in substr s.
Proof.
  revert i. induction s as [|c s IH]; intros i Hi.
  - simpl. destruct (strings.HasPrefix "" substr) eqn:Hp.
    + split; [intros _ | intros _; exact Hi].
      apply HasPrefix_spec in Hp as [after Hs]. exists "", after. exact Hs.
    + split; [lia |]. intros [before [after Hs]].
      assert (Hp' : strings.HasPrefix "" substr = true).
      { apply HasPrefix_spec. destruct before; [|discriminate].
        now exists after. }
      congruence.
  - cbn [strings.indexFrom]. destruct (strings.HasPrefix (String c s) substr) eqn:Hp.
    + split; [intros _ | intros _; exact Hi].
      apply HasPrefix_spec in Hp as [after Hs]. exists "", after. exact Hs.
    + rewrite (occurs_in_cons _ _ _ Hp). apply IH. lia.
Qed.

(** [strings.Contains] decides the substring relation. *)
Lemma Contains_spec (s substr : string) :
  strings.Contains s substr = true <-> strings.occurs_in substr s.
Proof.
  unfold strings.Contains, strings.Index.
  rewrite Z.leb_le. apply indexFrom_found. lia.
Qed.

Lemma Contains_false (s substr : string) :
  strings.Contains s substr = false <-> ~ strings.occurs_in substr s.
Proof.
  rewrite <- Contains_spec. destruct (strings.Contains s substr); split; intros; congruence.
Qed.

(** ** The error kind *)

Lemma kinds_differ : APIErrTypeInvalidGrant <> APIErrTypeUnknown.
Proof. discriminate. Qed.

(** C6. The kind of an error is found by a substring match on its text:
    it is the invalid-grant kind exactly when the error is not nil and
    its text contains ["invalid_grant"], and the unknown kind in every
    other case, the nil error included. *)
Theorem ParseAPIErrType_substring_match (err : error) :
  (ParseAPIErrType err = APIErrTypeInvalidGrant <->
   exists text, err = Some text /\ strings.occurs_in "invalid_grant" text)
  /\ (ParseAPIErrType err = APIErrTypeUnknown <->
      ~ exists text, err = Some text /\ strings.occurs_in "invalid_grant" text)
  /\ ParseAPIErrType None = APIErrTypeUnknown.
Proof.
  split; [|split]; [| |reflexivity].
  - destruct err as [text|]; simpl.
    + destruct (strings.Contains text "invalid_grant") eqn:Hc.
      * apply Contains_spec in Hc. split; [intros _; eauto | reflexivity].
      * apply Contains_false in Hc. split; [discriminate |].
        intros [text' [Heq Hocc]]. injection Heq as <-. contradiction.
    + split; [discriminate | intros [text [Heq _]]; discriminate].
  - destruct err as [text|]; simpl.
    + destruct (strings.Contains text "invalid_grant") eqn:Hc.
      * apply Contains_spec in Hc. split; [discriminate |].
        intros Hno. exfalso. apply Hno. eauto.
      * apply Contains_false in Hc. split; [|reflexivity].
        intros _ [text' [Heq Hocc]]. injection Heq as <-. contradiction.
    + split; [|reflexivity]. intros _ [text [Heq _]]. discriminate.
Qed.

(** ** The error mapper *)

Lemma checkForError_transport {X : Extern} (resp : option Response)
    (text errMessage : string) :
  checkForError resp (Some text) errMessage =
  Some (mkAPIError 0 (errMessage +:+ ": " +:+ text) (ParseAPIErrType (Some text))).
Proof. reflexivity. Qed.

Lemma checkForError_status {X : Extern} (resp : Response) (errMessage : string) :
  IsError resp = true ->
  checkForError (Some resp) None errMessage =
  Some (mkAPIError (StatusCode resp) (statusMessage resp) APIErrTypeUnknown).
Proof.
  intros Herr. unfold checkForError, statusMessage, Sprintf_status_error.
  rewrite Herr. destruct (Response_Error resp) as [|e|]; reflexivity.
Qed.

Lemma checkForError_success {X : Extern} (resp : Response) (errMessage : string) :
  IsError resp = false -> checkForError (Some resp) None errMessage = None.
Proof. intros Herr. unfold checkForError. now rewrite Herr. Qed.



(** C3. The mapper is a total, deterministic function of its triple:
    every triple falls under exactly one of the four cases of the
    contract, with exactly one result, and that result is what the
    mapper returns. It returns nil exactly when there is no transport
    error, the response is not nil and the response does not signal an
    HTTP error status. *)
Theorem checkForError_total_deterministic {X : Extern} (resp : option Response)
    (err : error) (errMessage : string) :
  (exists! bo : Branch * option APIError,
      ErrorMapper_spec (fst bo) resp err errMessage (snd bo))
  /\ (forall b out, ErrorMapper_spec b resp err errMessage out ->
      checkForError resp err errMessage = out)
  /\ (forall b out, ErrorMapper_spec b resp err errMessage out ->
      b = Success <-> out = None)
  /\ (checkForError resp err errMessage = None <->
      err = None /\ exists r, resp = Some r /\ IsError r = false).
Proof.
  assert (Hsound : forall b out, ErrorMapper_spec b resp err errMessage out ->
                   checkForError resp err errMessage = out).
  { intros b out Hspec. destruct Hspec.
    - now apply checkForError_success.
    - reflexivity.
    - reflexivity.
    - now apply checkForError_status. }
  assert (Hbranch : forall b1 b2 o1 o2,
             ErrorMapper_spec b1 resp err errMessage o1 ->
             ErrorMapper_spec b2 resp err errMessage o2 -> b1 = b2).
  { intros b1 b2 o1 o2 H1 H2.
    destruct H1; inversion H2; subst; try reflexivity; congruence. }
  split; [|split; [exact Hsound | split]].
  - assert (Hex : exists b out, ErrorMapper_spec b resp err errMessage out).
    { destruct err as [text|].
      - eexists _, _. apply spec_transport.
      - destruct resp as [r|].
        + destruct (IsError r) eqn:Herr.
          * eexists _, _. now apply spec_http.
          * eexists _, _. now apply spec_success.
        + eexists _, _. apply spec_empty. }
    destruct Hex as [b [out Hspec]]. exists (b, out). split; [exact Hspec |].
    intros [b' out'] Hspec'. simpl in Hspec'. f_equal.
    + exact (Hbranch _ _ _ _ Hspec Hspec').
    + rewrite <- (Hsound _ _ Hspec). exact (Hsound _ _ Hspec').
  - intros b out Hspec. destruct Hspec; split; congruence.
  - destruct err as [text|]; [split; [discriminate | intros [? _]; discriminate] |].
    destruct resp as [r|]; [|split; [discriminate | intros [_ [r [? _]]]; discriminate]].
    destruct (IsError r) eqn:Herr.
    + rewrite (checkForError_status r errMessage Herr).
      split; [discriminate |]. intros [_ [r' [Hr Hno]]]. injection Hr as <-. congruence.
    + rewrite (checkForError_success r errMessage Herr).
      split; [intros _; split; [reflexivity | now exists r] | reflexivity].
Qed.

(** ** The operations, step by step *)

Lemma lookup_alloc {X : Extern} (h : Heap) (v : Value) :
  deref (h ++ [v]) (List.length h) = Some v.
Proof.
  unfold deref. rewrite lookup_app_r by reflexivity.
  now rewrite Nat.sub_diag.
Qed.

Lemma newVar_load {X : Extern} {A : Type} (v : Value) (k : loc -> Value -> M A)
    (h : Heap) :
  bind (newVar v) (fun p => bind (load p) (k p)) h
  = k (List.length h) v (h ++ [v]).
Proof.
  unfold bind, newVar, load, alloc. now rewrite lookup_alloc.
Qed.

(** The request that [Post] and [Get] hand to the client, and what they
    make of its answer. *)
Lemma Post_eq {X : Extern} {A : Type} (c : resty_Client) (url : string)
    (r : Request) (k : option Response * error -> M A) (h : Heap) :
  bind (Post c url r) k h
  = k (snd (Execute c (withMethodURL "POST" url r) h))
      (fst (Execute c (withMethodURL "POST" url r) h)).
Proof.
  unfold bind, Post. now destruct (Execute c (withMethodURL "POST" url r) h).
Qed.

Lemma Get_eq {X : Extern} {A : Type} (c : resty_Client) (url : string)
    (r : Request) (k : option Response * error -> M A) (h : Heap) :
  bind (Get c url r) k h
  = k (snd (Execute c (withMethodURL "GET" url r) h))
      (fst (Execute c (withMethodURL "GET" url r) h)).
Proof.
  unfold bind, Get. now destruct (Execute c (withMethodURL "GET" url r) h).
Qed.

Lemma finish_error {X : Extern} {A : Type} (errMessage : string) (nothing : A)
    (result : option Response -> Outcome A) (h : Heap) (resp : option Response)
    (text : string) :
  finish errMessage nothing result (h, (resp, Some text))
  = Ret ((nothing,
          Some (mkAPIError 0 (errMessage +:+ ": " +:+ text)
                  (ParseAPIErrType (Some text)))), h).
Proof. reflexivity. Qed.

Lemma finish_success {X : Extern} {A : Type} (errMessage : string) (nothing : A)
    (result : option Response -> Outcome A) (h : Heap) (resp : Response) :
  IsError resp = false ->
  finish errMessage nothing result (h, (Some resp, None))
  = match result (Some resp) with
    | Ret a => Ret ((a, None), h)
    | Panic reason => Panic reason
    end.
Proof.
  intros Herr. unfold finish. cbn [fst snd].
  now rewrite (checkForError_success resp errMessage Herr).
Qed.

(** [SetResult] with a pointer keeps the heap; with a value it
    allocates the container it registers. *)
Lemma SetResult_pointer {X : Extern} {A : Type} (p : loc) (r : Request)
    (k : Request -> M A) (h : Heap) :
  bind (SetResult (ByPointer p) r) k h = k (withResult p r) h.
Proof. reflexivity. Qed.

Lemma SetResult_value {X : Extern} {A : Type} (v : Value) (r : Request)
    (k : Request -> M A) (h : Heap) :
  bind (SetResult (ByValue v) r) k h
  = k (withResult (List.length h) r) (h ++ [zeroOf v]).
Proof. reflexivity. Qed.

Lemma newVar_eq {X : Extern} {A : Type} (v : Value) (k : loc -> M A) (h : Heap) :
  bind (newVar v) k h = k (List.length h) (h ++ [v]).
Proof. reflexivity. Qed.

Ltac finish_cases :=
  repeat match goal with z := _ |- _ => subst z end;
  unfold finish, ret, Sprintf_path; cbv beta zeta; cbn [fst snd zeroOf];
  match goal with
  | |- context [checkForError ?r ?e ?m] => destruct (checkForError r e m)
  end; reflexivity.

(** The operations that post a body: a variable for the response, a
    copy of it handed to [SetResult], the request, and the common end. *)
Lemma CreateCustomer_steps {X : Extern} {P : Process} (g : GoArpa) (ctx : Ctx)
    (accessToken : string) (customer : CreateCustomerRequest) (h : Heap) :
  let zero := VCreateCustomerResponse CreateCustomerResponse_zero in
  CreateCustomer g ctx accessToken customer h
  = finish CreateCustomer_errMessage None (fun _ => Ret (Some (List.length h)))
      (Execute (restyClient g)
         (withMethodURL "POST"
            (basePath g +:+ "/" +:+ CreateCustomerEndpoint (Config_ g))
            (withResult (List.length (h ++ [zero]))
               (SetBody (BodyCreateCustomerRequest customer)
                  (GetRequestWithBearerAuth g ctx accessToken))))
         ((h ++ [zero]) ++ [zero])).
Proof.
  intros zero. unfold CreateCustomer.
  rewrite newVar_load, SetResult_value, Post_eq. finish_cases.
Qed.

Lemma CreateTransaction_steps {X : Extern} {P : Process} (g : GoArpa) (ctx : Ctx)
    (accessToken : string) (transaction : CreateTransactionRequest) (h : Heap) :
  let zero := VCreateTransactionResponse CreateTransactionResponse_zero in
  CreateTransaction g ctx accessToken transaction h
  = finish CreateTransaction_errMessage None (fun _ => Ret (Some (List.length h)))
      (Execute (restyClient g)
         (withMethodURL "POST"
            (basePath g +:+ "/" +:+ CreateTransactionEndpoint (Config_ g))
            (withResult (List.length (h ++ [zero]))
               (SetBody (BodyCreateTransactionRequest transaction)
                  (GetRequestWithBearerAuth g ctx accessToken))))
         ((h ++ [zero]) ++ [zero])).
Proof.
  intros zero. unfold CreateTransaction.
  rewrite newVar_load, SetResult_value, Post_eq. finish_cases.
Qed.

Lemma CreateService_steps {X : Extern} {P : Process} (g : GoArpa) (ctx : Ctx)
    (accessToken : string) (service : CreateServiceRequest) (h : Heap) :
  let zero := VCreateServiceResponse CreateServiceResponse_zero in
  CreateService g ctx accessToken service h
  = finish CreateService_errMessage None (fun _ => Ret (Some (List.length h)))
      (Execute (restyClient g)
         (withMethodURL "POST"
            (basePath g +:+ "/" +:+ CreateServiceEndpoint (Config_ g))
            (withResult (List.length (h ++ [zero]))
               (SetBody (BodyCreateServiceRequest service)
                  (GetRequestWithBearerAuth g ctx accessToken))))
         ((h ++ [zero]) ++ [zero])).
Proof.
  intros zero. unfold CreateService.
  rewrite newVar_load, SetResult_value, Post_eq. finish_cases.
Qed.

(** The cookie-bearing lookups, once their request could be built. *)
Lemma GetCustomerByMobile_steps {X : Extern} {P : Process} (g : GoArpa)
    (ctx : Ctx) (accessToken : string) (cookie : slice Cookie) (mobile : string)
    (h : Heap) (req : Request) :
  GetRequestWithBearerAuthWithCookie g ctx accessToken cookie = Ret req ->
  GetCustomerByMobile g ctx accessToken cookie mobile h
  = finish GetCustomerByMobile_errMessage None
      (fun _ => Ret (Some (List.length h)))
      (Execute (restyClient g)
         (withMethodURL "GET"
            (basePath g +:+ "/" +:+ GetCustomerEndpoint (Config_ g))
            (withResult (List.length h) (SetQueryParam MobileKey mobile req)))
         (h ++ [VGetCustomerResponse GetCustomerResponse_zero])).
Proof.
  intros Hreq. unfold GetCustomerByMobile. rewrite newVar_eq, Hreq.
  unfold liftOutcome. unfold bind at 1.
  rewrite SetResult_pointer, Get_eq. finish_cases.
Qed.

Lemma GetCustomerByBusinessCode_steps {X : Extern} {P : Process} (g : GoArpa)
    (ctx : Ctx) (accessToken : string) (cookie : slice Cookie)
    (businessCode : string) (h : Heap) (req : Request) :
  GetRequestWithBearerAuthWithCookie g ctx accessToken cookie = Ret req ->
  GetCustomerByBusinessCode g ctx accessToken cookie businessCode h
  = finish GetCustomerByBusinessCode_errMessage None
      (fun _ => Ret (Some (List.length h)))
      (Execute (restyClient g)
         (withMethodURL "GET"
            (basePath g +:+ "/" +:+ GetCustomerEndpoint (Config_ g))
            (withResult (List.length h)
               (SetQueryParam BusinessCodeKey businessCode req)))
         (h ++ [VGetCustomerResponse GetCustomerResponse_zero])).
Proof.
  intros Hreq. unfold GetCustomerByBusinessCode. rewrite newVar_eq, Hreq.
  unfold liftOutcome. unfold bind at 1.
  rewrite SetResult_pointer, Get_eq. finish_cases.
Qed.

(** Without a first cookie the lookups panic before any request is sent. *)
Lemma GetCustomerByMobile_panics {X : Extern} {P : Process} (g : GoArpa)
    (ctx : Ctx) (accessToken : string) (cookie : slice Cookie) (mobile : string)
    (h : Heap) (reason : string) :
  GetRequestWithBearerAuthWithCookie g ctx accessToken cookie = Panic reason ->
  GetCustomerByMobile g ctx accessToken cookie mobile h = Panic reason.
Proof.
  intros Hreq. unfold GetCustomerByMobile. rewrite newVar_eq, Hreq. reflexivity.
Qed.

(** The two ways to authenticate. *)
Lemma GetAdminToken_steps {X : Extern} {P : Process} (g : GoArpa) (ctx : Ctx)
    (username password : string) (h : Heap) :
  GetAdminToken g ctx username password h
  = finish GetAdminToken_errMessage ("", None)
      (fun resp =>
         match resp with
         | Some resp => Ret (Response_String resp, Response_Cookies resp)
         | None => Panic "invalid memory address or nil pointer dereference"
         end)
      (Execute (restyClient g)
         (withMethodURL "GET"
            (basePath g +:+ "/" +:+ GetServiceTokenEndpoint (Config_ g) +:+ "?")
            (SetQueryParams [("username", username); ("password", password)]
               (GetRequest g ctx)))
         h).
Proof.
  unfold GetAdminToken. rewrite Get_eq. unfold finish, ret, nilResponse, liftOutcome.
  cbn [fst snd].
  destruct (checkForError _ _ _); [reflexivity |].
  destruct (Execute _ _ _).2.1; reflexivity.
Qed.

Lemma AdminAuthenticate_steps {X : Extern} {P : Process} (g : Legacy.GoArpa)
    (ctx : Ctx) (username password : string) (h : Heap) :
  Legacy.AdminAuthenticate g ctx username password h
  = finish Legacy.AdminAuthenticate_errMessage None
      (fun _ => Ret (Some (List.length h)))
      (Execute (Legacy.restyClient g)
         (withMethodURL "POST"
            (Legacy.basePath g +:+ "/"
               +:+ Legacy.GetServiceTokenEndpoint (Legacy.Config_ g))
            (withResult (List.length h)
               (SetHeaders [("username", username); ("password", password)]
                  (Legacy.GetRequest g ctx))))
         (h ++ [VJWT JWT_zero])).
Proof.
  unfold Legacy.AdminAuthenticate. rewrite newVar_eq.
  rewrite SetResult_pointer, Post_eq. finish_cases.
Qed.

(** ** Transport failures *)



Lemma buildable_request {X : Extern} {P : Process} (g : GoArpa) (ctx : Ctx)
    (accessToken : string) (cookie : slice Cookie) :
  (exists first rest, cookie = Some (first :: rest)) ->
  exists req, GetRequestWithBearerAuthWithCookie g ctx accessToken cookie = Ret req.
Proof.
  intros [first [rest ->]]. unfold GetRequestWithBearerAuthWithCookie.
  cbn [index0]. eexists. reflexivity.
Qed.




(** ** Tracing headers *)

Lemma withHeader_same {X : Extern} (req : Request) :
  withHeader (Request_Header req) req = req.
Proof. now destruct req. Qed.

(** The tracer that a context with a span selects. *)
Lemma injectTracingHeaders_span {X : Extern} {P : Process} (ctx : Ctx)
    (req : Request) (span : Span) :
  SpanFromContext ctx = Some span ->
  injectTracingHeaders ctx req
  = withHeader
      (Inject (default GlobalTracer (tracerValue ctx)) (Span_Context span)
         (Request_Header req)).1
      req.
Proof.
  intros Hspan. unfold injectTracingHeaders. rewrite Hspan.
  destruct (tracerValue ctx) as [tracer|]; cbn [default];
    destruct (Inject _ _ _) as [hdr [e|]]; reflexivity.
Qed.

(** Injection changes nothing but the header map. *)
Lemma injectTracingHeaders_shape {X : Extern} {P : Process} (ctx : Ctx)
    (req : Request) :
  exists hdr, injectTracingHeaders ctx req = withHeader hdr req.
Proof.
  destruct (SpanFromContext ctx) as [span|] eqn:Hspan.
  - eexists. exact (injectTracingHeaders_span ctx req span Hspan).
  - exists (Request_Header req). unfold injectTracingHeaders.
    rewrite Hspan. symmetry. apply withHeader_same.
Qed.

(** C9 (as amended). In a context without an active span the injection
    step returns the request as it is, no header added or altered; the
    step has no error to report in any case. With a span, the request
    comes back with its header map as the tracer's [Inject] left it,
    whether [Inject] reported an error or not: it is the unchanged
    request when a failing [Inject] wrote nothing into the carrier. *)
Theorem injectTracingHeaders_frame {X : Extern} {P : Process} (ctx : Ctx)
    (req : Request) :
  (SpanFromContext ctx = None -> injectTracingHeaders ctx req = req)
  /\ (forall span,
      SpanFromContext ctx = Some span ->
      let tracer := default GlobalTracer (tracerValue ctx) in
      let carried := Inject tracer (Span_Context span) (Request_Header req) in
      injectTracingHeaders ctx req = withHeader carried.1 req
      /\ (carried.1 = Request_Header req -> injectTracingHeaders ctx req = req)).
Proof.
  split.
  - intros Hspan. unfold injectTracingHeaders. now rewrite Hspan.
  - intros span Hspan tracer carried.
    pose proof (injectTracingHeaders_span ctx req span Hspan) as Heq.
    split; [exact Heq |]. intros Hsame. rewrite Heq.
    fold tracer. fold carried. rewrite Hsame. apply withHeader_same.
Qed.

(** C9, the claim as it stands fails: a tracer that writes its header
    into the carrier and then reports a failure leaves the header on the
    request that the step returns. *)
Lemma injectTracingHeaders_failure_keeps_header :
  let ctx := Sample.tracedWith Sample.leakyTracer in
  let req := Sample.freshRequest in
  SpanFromContext ctx <> None
  /\ (Inject Sample.leakyTracer "span-1" (Request_Header req)).2
     = Some "carrier: baggage rejected"
  /\ Request_Header req !! "Trace-Id" = None
  /\ Request_Header (injectTracingHeaders (P := Sample.process) ctx req) !! "Trace-Id"
     = Some ["span-1"]
  /\ injectTracingHeaders (P := Sample.process) ctx req <> req.
Proof.
  intros ctx req. split; [discriminate |]. split; [reflexivity |].
  split; [reflexivity |]. split; [reflexivity |].
  intros Heq.
  assert (Hhdr : Request_Header (injectTracingHeaders (P := Sample.process) ctx req)
                   !! "Trace-Id" = Some ["span-1"]) by reflexivity.
  rewrite Heq in Hhdr. discriminate Hhdr.
Qed.

(** ** The cookie-bearing request *)

Lemma GetRequest_no_cookie {X : Extern} {P : Process} (g : GoArpa) (ctx : Ctx) :
  Cookies (GetRequest g ctx) = [].
Proof.
  unfold GetRequest.
  destruct (injectTracingHeaders_shape ctx (SetError HTTPErrorResponse_zero (SetContext ctx R)))
    as [hdr ->].
  reflexivity.
Qed.

Lemma GetCustomerByBusinessCode_panics {X : Extern} {P : Process} (g : GoArpa)
    (ctx : Ctx) (accessToken : string) (cookie : slice Cookie)
    (businessCode : string) (h : Heap) (reason : string) :
  GetRequestWithBearerAuthWithCookie g ctx accessToken cookie = Panic reason ->
  GetCustomerByBusinessCode g ctx accessToken cookie businessCode h = Panic reason.
Proof.
  intros Hreq. unfold GetCustomerByBusinessCode. rewrite newVar_eq, Hreq. reflexivity.
Qed.

Lemma empty_cookie_panics {X : Extern} {P : Process} (g : GoArpa) (ctx : Ctx)
    (token : string) (cookie : slice Cookie) :
  len cookie = 0 ->
  GetRequestWithBearerAuthWithCookie g ctx token cookie
  = Panic "index out of range [0] with length 0".
Proof.
  intros Hlen. unfold GetRequestWithBearerAuthWithCookie.
  destruct cookie as [[|first rest]|]; try reflexivity.
  cbn [len List.length] in Hlen. lia.
Qed.

(** C8. Given a cookie collection with a first element, building the
    request succeeds and attaches that first cookie and no other; on an
    empty or nil collection the access to the first element is reached
    and panics, in the builder and so in the two lookups that call it. *)
Theorem cookie_request_first_cookie {X : Extern} {P : Process} (g : GoArpa)
    (ctx : Ctx) (token : string) (cookie : slice Cookie) :
  (forall first rest,
      cookie = Some (first :: rest) ->
      exists req,
        GetRequestWithBearerAuthWithCookie g ctx token cookie = Ret req
        /\ Cookies req = [first]
        /\ Token req = token)
  /\ (len cookie = 0 ->
      GetRequestWithBearerAuthWithCookie g ctx token cookie
      = Panic "index out of range [0] with length 0"
      /\ (forall key h,
          GetCustomerByMobile g ctx token cookie key h
          = Panic "index out of range [0] with length 0"
          /\ GetCustomerByBusinessCode g ctx token cookie key h
             = Panic "index out of range [0] with length 0")).
Proof.
  split.
  - intros first rest ->. unfold GetRequestWithBearerAuthWithCookie.
    cbn [index0]. eexists. split; [reflexivity |].
    cbn [SetHeader withHeader SetCookie SetAuthToken Cookies Token].
    rewrite GetRequest_no_cookie. split; reflexivity.
  - intros Hlen. pose proof (empty_cookie_panics g ctx token cookie Hlen) as Hpanic.
    split; [exact Hpanic |]. intros key h. split.
    + now apply GetCustomerByMobile_panics.
    + now apply GetCustomerByBusinessCode_panics.
Qed.

(** ** The constructor *)

Lemma lastByte_cons (c : ascii) (s : string) :
  s <> "" -> lastByte (String c s) = lastByte s.
Proof. destruct s; [congruence | reflexivity]. Qed.

(** [strings.TrimRight] with the separator as its cut set removes the
    trailing separators and nothing else. *)
Lemma TrimRight_separator (s : string) :
  trimmedOf "/" s (strings.TrimRight s urlSeparator).
Proof.
  unfold urlSeparator. induction s as [|c s IH].
  - split; [exists ""; split; reflexivity | discriminate].
  - destruct IH as [[suffix [Hs Hall]] Hlast]. cbn [strings.TrimRight].
    destruct (strings.TrimRight s "/") as [|d kept] eqn:Htrim.
    + cbn [strings.inCutset]. rewrite orb_false_r.
      destruct (Ascii.eqb_spec c "/") as [->|Hne].
      * split; [|discriminate]. exists (String "/" s). split; [reflexivity |].
        rewrite Hs. cbn [allBytes]. exact Hall.
      * split.
        -- exists suffix. split; [now rewrite Hs | exact Hall].
        -- cbn [lastByte]. congruence.
    + split.
      * exists suffix. split; [|exact Hall].
        rewrite append_cons. now rewrite <- Hs.
      * rewrite lastByte_cons by discriminate. exact Hlast.
Qed.

(** C7. [NewClient] sets the defaults and then runs the options in the
    order given. The defaults: the base path is the input without its
    trailing separators, and the five endpoint paths are the fixed
    suffixes, each the join of its segments with the separator. With no
    option the client is the default one; an option added at the end
    of the list is applied to the client that the options before it
    produce. *)
Theorem NewClient_defaults_then_options {X : Extern} {P : Process}
    (base : string) (options : list (GoArpa -> GoArpa)) :
  basePath (NewClient_defaults base) = strings.TrimRight base "/"
  /\ trimmedOf "/" base (basePath (NewClient_defaults base))
  /\ Config_ (NewClient_defaults base)
     = mkConfig "serv/token/GetServiceToken" "serv/api/PostBussiness"
         "serv/api/NewTransaction" "serv/api/PostService" "serv/api/GetBusiness"
  /\ Config_ (NewClient_defaults base)
     = mkConfig (strings.Join ["serv"; "token"; "GetServiceToken"] "/")
         (strings.Join ["serv"; "api"; "PostBussiness"] "/")
         (strings.Join ["serv"; "api"; "NewTransaction"] "/")
         (strings.Join ["serv"; "api"; "PostService"] "/")
         (strings.Join ["serv"; "api"; "GetBusiness"] "/")
  /\ restyClient (NewClient_defaults base) = resty_New
  /\ NewClient base [] = NewClient_defaults base
  /\ (forall option,
      NewClient base (options ++ [option]) = option (NewClient base options))
  /\ NewClient base options
     = fold_left (fun c option => option c) options (NewClient_defaults base).
Proof.
  split; [reflexivity |]. split; [apply TrimRight_separator |].
  split; [reflexivity |]. split; [reflexivity |]. split; [reflexivity |].
  split; [reflexivity |]. split; [|reflexivity].
  intros option. unfold NewClient. now rewrite fold_left_app.
Qed.

(** ** The two ways to authenticate *)

Lemma canonical_username : CanonicalMIMEHeaderKey "username" = "Username".
Proof. reflexivity. Qed.

Lemma canonical_password : CanonicalMIMEHeaderKey "password" = "Password".
Proof. reflexivity. Qed.

Lemma SetHeaders_credentials {X : Extern} (username password : string)
    (r : Request) :
  SetHeaders [("username", username); ("password", password)] r
  = withHeader
      (<["Password" := [password]]> (<["Username" := [username]]> (Request_Header r)))
      r.
Proof.
  unfold SetHeaders. cbn [fold_left fst snd]. unfold SetHeader, Header_Set.
  rewrite canonical_username. cbn [withHeader Request_Header].
  rewrite canonical_password. destruct r; reflexivity.
Qed.

Lemma SetQueryParams_credentials {X : Extern} (username password : string)
    (r : Request) :
  QueryParam (SetQueryParams [("username", username); ("password", password)] r)
  = <["password" := [password]]> (<["username" := [username]]> (QueryParam r))
  /\ Request_Header
       (SetQueryParams [("username", username); ("password", password)] r)
     = Request_Header r.
Proof. split; reflexivity. Qed.

Lemma GetRequest_shape {X : Extern} {P : Process} (g : GoArpa) (ctx : Ctx) :
  exists hdr,
    GetRequest g ctx
    = withHeader hdr (SetError HTTPErrorResponse_zero (SetContext ctx R)).
Proof. apply injectTracingHeaders_shape. Qed.

Lemma Legacy_GetRequest_shape {X : Extern} {P : Process} (g : Legacy.GoArpa)
    (ctx : Ctx) :
  exists hdr,
    Legacy.GetRequest g ctx
    = withHeader hdr (SetError HTTPErrorResponse_zero (SetContext ctx R)).
Proof. apply injectTracingHeaders_shape. Qed.

(** C5. The legacy authentication posts to the token endpoint with the
    user name and the password as request headers (under their
    canonical keys) and no query parameter, registers the address of a
    [JWT] as the result container and on success returns that address:
    the access token, refresh token and expiry that the transport
    decoded. The token-and-cookie variant sends a GET with the user name
    and the password as query parameters, adds no header of its own and
    on success returns the response body as a string together with the
    cookies of the response. *)
Theorem authenticate_variants {X : Extern} {P : Process} :
  (forall (g : Legacy.GoArpa) (ctx : Ctx) (username password : string) (h : Heap),
      let token := List.length h in
      let h0 := h ++ [VJWT JWT_zero] in
      exists req,
        Legacy.AdminAuthenticate g ctx username password h
        = finish Legacy.AdminAuthenticate_errMessage None
            (fun _ => Ret (Some token)) (Execute (Legacy.restyClient g) req h0)
        /\ Method req = "POST"
        /\ URL req = Legacy.basePath g +:+ "/"
                       +:+ Legacy.GetServiceTokenEndpoint (Legacy.Config_ g)
        /\ Request_Header req !! "Username" = Some [username]
        /\ Request_Header req !! "Password" = Some [password]
        /\ QueryParam req = ∅
        /\ Body req = None
        /\ Result req = Some token
        /\ deref h0 token = Some (VJWT JWT_zero)
        /\ (forall h' resp,
            Execute (Legacy.restyClient g) req h0 = (h', (Some resp, None)) ->
            IsError resp = false ->
            Legacy.AdminAuthenticate g ctx username password h
            = Ret ((Some token, None), h')))
  /\ (forall (g : GoArpa) (ctx : Ctx) (username password : string) (h : Heap),
      exists req,
        GetAdminToken g ctx username password h
        = finish GetAdminToken_errMessage ("", None)
            (fun resp =>
               match resp with
               | Some resp => Ret (Response_String resp, Response_Cookies resp)
               | None => Panic "invalid memory address or nil pointer dereference"
               end)
            (Execute (restyClient g) req h)
        /\ Method req = "GET"
        /\ URL req = basePath g +:+ "/" +:+ GetServiceTokenEndpoint (Config_ g) +:+ "?"
        /\ QueryParam req = {[ "username" := [username]; "password" := [password] ]}
        /\ Request_Header req = Request_Header (GetRequest g ctx)
        /\ Body req = None
        /\ Result req = None
        /\ (forall h' resp,
            Execute (restyClient g) req h = (h', (Some resp, None)) ->
            IsError resp = false ->
            GetAdminToken g ctx username password h
            = Ret ((Response_String resp, Response_Cookies resp, None), h'))).
Proof.
  split.
  - intros g ctx username password h token h0.
    eexists. split; [apply AdminAuthenticate_steps |].
    rewrite SetHeaders_credentials.
    destruct (Legacy_GetRequest_shape g ctx) as [hdr Hshape].
    cbn [withMethodURL withResult withHeader Method URL Request_Header QueryParam
           Body Result].
    rewrite Hshape.
    cbn [withHeader SetError SetContext R Method URL Request_Header QueryParam
           Body Result].
    split; [reflexivity |]. split; [reflexivity |].
    split; [rewrite lookup_insert_ne by discriminate; apply lookup_insert_eq |].
    split; [apply lookup_insert_eq |].
    split; [reflexivity |]. split; [reflexivity |]. split; [reflexivity |].
    split; [apply lookup_alloc |].
    intros h' resp Hexec Herr. rewrite AdminAuthenticate_steps.
    rewrite SetHeaders_credentials, Hshape.
    cbn [withMethodURL withResult withHeader SetError SetContext R Method URL
           Request_Header QueryParam Body Result Token Cookies Request_ctx Error]
      in Hexec |- *.
    fold h0. rewrite Hexec. now rewrite finish_success.
  - intros g ctx username password h.
    eexists. split; [apply GetAdminToken_steps |].
    destruct (GetRequest_shape g ctx) as [hdr Hshape].
    split; [reflexivity |]. split; [reflexivity |].
    split.
    { cbn [withMethodURL QueryParam].
      rewrite (proj1 (SetQueryParams_credentials username password _)).
      rewrite Hshape. cbn [withHeader SetError SetContext R QueryParam].
      rewrite <- (insert_empty "password"). apply insert_insert_ne. discriminate. }
    split; [reflexivity |].
    split; [rewrite Hshape; reflexivity |]. split; [rewrite Hshape; reflexivity |].
    intros h' resp Hexec Herr. rewrite GetAdminToken_steps, Hexec.
    now rewrite finish_success.
Qed.

(** ** The create-customer round trip *)

(** The variable that [CreateCustomer] returns the address of is not
    the container its request registers, so a client that writes
    through the result pointer only leaves it at its zero value. *)
Lemma CreateCustomer_result_never_written {X : Extern} {P : Process}
    (g : GoArpa) (ctx : Ctx) (accessToken : string)
    (customer : CreateCustomerRequest) (h : Heap) :
  writesOnlyResult (restyClient g) ->
  forall r e h',
    CreateCustomer g ctx accessToken customer h = Ret ((r, e), h') ->
    deref h' (List.length h) = Some (VCreateCustomerResponse CreateCustomerResponse_zero)
    /\ (e = None -> r = Some (List.length h)).
Proof.
  intros Hframe r e h' Hrun. rewrite CreateCustomer_steps in Hrun.
  cbv zeta in Hrun.
  destruct (Execute _ _ _) as [h1 answer] eqn:Hexec.
  assert (Hh : h1 = h').
  { unfold finish in Hrun. cbn [fst snd] in Hrun.
    destruct (checkForError _ _ _); now inversion Hrun. }
  subst h1. split.
  - rewrite (Hframe _ _ _ _ Hexec (List.length h)).
    + unfold deref. rewrite lookup_app_l by (rewrite length_app; simpl; lia).
      apply lookup_alloc.
    + cbn [withMethodURL withResult Result]. rewrite length_app. simpl.
      intros Heq. injection Heq. lia.
  - intros ->. unfold finish in Hrun. cbn [fst snd] in Hrun.
    destruct (checkForError _ _ _); inversion Hrun. reflexivity.
Qed.

(** The server of the scenario is such a client. *)
Lemma createCustomerServer_writesOnlyResult :
  writesOnlyResult Sample.createCustomerServer.
Proof.
  intros req h h' answer Hexec p Hne. cbn [Execute Sample.createCustomerServer] in Hexec.
  destruct (_ && _) in Hexec; [|now inversion Hexec].
  destruct (Result req) as [q|] eqn:Hres; inversion Hexec; subst; [|reflexivity].
  unfold deref, store. apply list_lookup_insert_ne. congruence.
Qed.

(** C2, on the code: against the server of the scenario the call
    succeeds, and the pointer it returns (location 0, the variable
    [response]) holds the zero value; the decoded body sits in the
    container that [SetResult] allocated for the copy (location 1). *)
Theorem CreateCustomer_returns_zero_value :
  exists h',
    CreateCustomer (P := Sample.process)
      (Sample.clientOn Sample.createCustomerServer) Sample.background "token"
      Sample.customer []
    = Ret ((Some 0%nat, None), h')
    /\ deref h' 0 = Some (VCreateCustomerResponse (mkCreateCustomerResponse "" "" false))
    /\ deref h' 1 = Some (VCreateCustomerResponse Sample.decodedCustomer)
    /\ deref h' 0 <> Some (VCreateCustomerResponse Sample.decodedCustomer).
Proof.
  eexists. split; [vm_compute; reflexivity |].
  split; [reflexivity |]. split; [reflexivity |]. discriminate.
Qed.

(** The same scenario for the legacy authentication, which hands the
    address of its variable to [SetResult]: the pointer it returns holds
    the decoded token. *)
Lemma AdminAuthenticate_returns_decoded_token :
  exists h',
    Legacy.AdminAuthenticate (P := Sample.process)
      (Sample.legacyClientOn Sample.tokenServer) Sample.background "admin" "secret" []
    = Ret ((Some 0%nat, None), h')
    /\ deref h' 0 = Some (VJWT Sample.decodedToken).
Proof.
  eexists. split; [vm_compute; reflexivity |]. reflexivity.
Qed.

(** ** Bytes and bits *)

Lemma byteVal_range (c : ascii) : 0 <= byteVal c < 256.
Proof.
  unfold byteVal. pose proof (N_ascii_bounded c) as Hb. lia.
Qed.

Lemma byteOf_byteVal (c : ascii) : byteOf (byteVal c) = c.
Proof.
  unfold byteOf, byteVal. pose proof (N_ascii_bounded c) as Hb.
  rewrite Z.mod_small by lia. rewrite N2Z.id. apply ascii_N_embedding.
Qed.

Lemma byteVal_byteOf (z : Z) : 0 <= z < 256 -> byteVal (byteOf z) = z.
Proof.
  intros Hz. unfold byteOf, byteVal. rewrite Z.mod_small by lia.
  rewrite N_ascii_embedding by lia. lia.
Qed.

(** Two numbers with no bit in common are joined by [Z.lor] as by a
    sum. *)
Lemma lor_add (k x y : Z) :
  0 <= k -> x mod 2 ^ k = 0 -> 0 <= y < 2 ^ k -> Z.lor x y = x + y.
Proof.
  intros Hk Hx Hy.
  assert (Hland : Z.land x y = 0).
  { apply Z.bits_inj'. intros i Hi. rewrite Z.land_spec, Z.bits_0.
    destruct (Z.lt_ge_cases i k) as [Hlt|Hge].
    - assert (Hbit : Z.testbit x i = false).
      { rewrite <- (Z.mod_pow2_bits_low x k i) by lia. rewrite Hx. apply Z.bits_0. }
      now rewrite Hbit.
    - assert (Hbit : Z.testbit y i = false).
      { rewrite <- (Z.mod_small y (2 ^ k)) by lia.
        apply Z.mod_pow2_bits_high. lia. }
      rewrite Hbit. apply andb_false_r. }
  pose proof (Z.add_lor_land x y) as Hsum. lia.
Qed.

Lemma land_mask (k x : Z) : 0 <= k -> Z.land x (2 ^ k - 1) = x mod 2 ^ k.
Proof.
  intros Hk. rewrite <- Z.land_ones by lia. f_equal.
  rewrite Z.ones_equiv. lia.
Qed.

Ltac zbool :=
  rewrite ?andb_true_iff, ?orb_true_iff, ?andb_false_iff, ?orb_false_iff,
    ?negb_true_iff, ?negb_false_iff, ?Z.leb_le, ?Z.ltb_lt, ?Z.leb_gt, ?Z.ltb_ge,
    ?Z.eqb_eq, ?Z.eqb_neq;
  lia.

Ltac divmod := Z.div_mod_to_equations; lia.

(** The masks and shifts of the UTF-8 codec, as arithmetic. *)
Lemma land_63 (x : Z) : Z.land x 63 = x mod 64.
Proof. exact (land_mask 6 x ltac:(lia)). Qed.
Lemma land_31 (x : Z) : Z.land x 31 = x mod 32.
Proof. exact (land_mask 5 x ltac:(lia)). Qed.
Lemma land_15 (x : Z) : Z.land x 15 = x mod 16.
Proof. exact (land_mask 4 x ltac:(lia)). Qed.
Lemma land_7 (x : Z) : Z.land x 7 = x mod 8.
Proof. exact (land_mask 3 x ltac:(lia)). Qed.

Lemma shiftl_6 (x : Z) : Z.shiftl x 6 = x * 64.
Proof. now rewrite Z.shiftl_mul_pow2 by lia. Qed.
Lemma shiftl_12 (x : Z) : Z.shiftl x 12 = x * 4096.
Proof. now rewrite Z.shiftl_mul_pow2 by lia. Qed.
Lemma shiftl_18 (x : Z) : Z.shiftl x 18 = x * 262144.
Proof. now rewrite Z.shiftl_mul_pow2 by lia. Qed.
Lemma shiftr_6 (x : Z) : Z.shiftr x 6 = x / 64.
Proof. now rewrite Z.shiftr_div_pow2 by lia. Qed.
Lemma shiftr_12 (x : Z) : Z.shiftr x 12 = x / 4096.
Proof. now rewrite Z.shiftr_div_pow2 by lia. Qed.
Lemma shiftr_18 (x : Z) : Z.shiftr x 18 = x / 262144.
Proof. now rewrite Z.shiftr_div_pow2 by lia. Qed.

(** The lead byte and a continuation byte, put together again. *)
Lemma lor_tx (y : Z) : 0 <= y < 64 -> Z.lor 128 y = 128 + y.
Proof. intros Hy. apply (lor_add 6); [lia | reflexivity | lia]. Qed.
Lemma lor_t2 (y : Z) : 0 <= y < 32 -> Z.lor 192 y = 192 + y.
Proof. intros Hy. apply (lor_add 5); [lia | reflexivity | lia]. Qed.
Lemma lor_t3 (y : Z) : 0 <= y < 16 -> Z.lor 224 y = 224 + y.
Proof. intros Hy. apply (lor_add 4); [lia | reflexivity | lia]. Qed.
Lemma lor_t4 (y : Z) : 0 <= y < 8 -> Z.lor 240 y = 240 + y.
Proof. intros Hy. apply (lor_add 3); [lia | reflexivity | lia]. Qed.

(** The rune of a sequence of two, three and four bytes. *)
Lemma rune2 (b0 b1 : Z) :
  192 <= b0 <= 223 -> 128 <= b1 <= 191 ->
  Z.lor (Z.shiftl (Z.land b0 31) 6) (Z.land b1 63)
  = (b0 - 192) * 64 + (b1 - 128).
Proof.
  intros H0 H1. rewrite land_31, land_63, shiftl_6.
  rewrite (lor_add 6) by (try lia; divmod). divmod.
Qed.

Lemma rune3 (b0 b1 b2 : Z) :
  224 <= b0 <= 239 -> 128 <= b1 <= 191 -> 128 <= b2 <= 191 ->
  Z.lor (Z.lor (Z.shiftl (Z.land b0 15) 12) (Z.shiftl (Z.land b1 63) 6))
    (Z.land b2 63)
  = (b0 - 224) * 4096 + (b1 - 128) * 64 + (b2 - 128).
Proof.
  intros H0 H1 H2. rewrite land_15, !land_63, shiftl_6, shiftl_12.
  rewrite (lor_add 12 (b0 mod 16 * 4096)) by (try lia; divmod).
  rewrite (lor_add 6) by (try lia; divmod). divmod.
Qed.

Lemma rune4 (b0 b1 b2 b3 : Z) :
  240 <= b0 <= 247 -> 128 <= b1 <= 191 -> 128 <= b2 <= 191 -> 128 <= b3 <= 191 ->
  Z.lor (Z.lor (Z.lor (Z.shiftl (Z.land b0 7) 18) (Z.shiftl (Z.land b1 63) 12))
           (Z.shiftl (Z.land b2 63) 6))
    (Z.land b3 63)
  = (b0 - 240) * 262144 + (b1 - 128) * 4096 + (b2 - 128) * 64 + (b3 - 128).
Proof.
  intros H0 H1 H2 H3. rewrite land_7, !land_63, shiftl_6, shiftl_12, shiftl_18.
  rewrite (lor_add 18 (b0 mod 8 * 262144)) by (try lia; divmod).
  rewrite (lor_add 12 (_ + _) (_ * 64)) by (try lia; divmod).
  rewrite (lor_add 6) by (try lia; divmod). divmod.
Qed.

Ltac decide_cond c v :=
  replace c with v by (symmetry; zbool).

Lemma EncodeRune2 (b0 b1 : Z) :
  194 <= b0 <= 223 -> 128 <= b1 <= 191 ->
  utf8.EncodeRune ((b0 - 192) * 64 + (b1 - 128))
  = String (byteOf b0) (String (byteOf b1) EmptyString).
Proof.
  intros H0 H1. set (r := (b0 - 192) * 64 + (b1 - 128)).
  assert (Hr : 128 <= r <= 2047) by (unfold r; lia).
  unfold utf8.EncodeRune, utf8.low8, utf8.t2, utf8.tx, utf8.maskx.
  decide_cond ((0 <=? r) && (r <=? 127)) false.
  decide_cond ((0 <=? r) && (r <=? 2047)) true.
  rewrite shiftr_6, land_63.
  replace ((r / 64) mod 256) with (b0 - 192) by (unfold r; divmod).
  replace ((r mod 256) mod 64) with (b1 - 128) by (unfold r; divmod).
  rewrite lor_t2, lor_tx by lia.
  repeat f_equal; lia.
Qed.

Lemma EncodeRune3 (b0 b1 b2 : Z) :
  224 <= b0 <= 239 -> 128 <= b1 <= 191 -> 128 <= b2 <= 191 ->
  let r := (b0 - 224) * 4096 + (b1 - 128) * 64 + (b2 - 128) in
  2048 <= r -> r < 55296 \/ 57343 < r ->
  utf8.EncodeRune r
  = String (byteOf b0) (String (byteOf b1) (String (byteOf b2) EmptyString)).
Proof.
  intros H0 H1 H2 r Hlow Hsur.
  assert (Hr : r <= 65535) by (unfold r; lia).
  unfold utf8.EncodeRune, utf8.low8, utf8.t3, utf8.tx, utf8.maskx.
  decide_cond ((0 <=? r) && (r <=? 127)) false.
  decide_cond ((0 <=? r) && (r <=? 2047)) false.
  decide_cond ((0 <=? r) && ((r <? 55296) || (57343 <? r) && (r <=? 65535))) true.
  rewrite shiftr_6, shiftr_12, !land_63.
  replace ((r / 4096) mod 256) with (b0 - 224) by (unfold r; divmod).
  replace (((r / 64) mod 256) mod 64) with (b1 - 128) by (unfold r; divmod).
  replace ((r mod 256) mod 64) with (b2 - 128) by (unfold r; divmod).
  rewrite lor_t3, !lor_tx by lia.
  repeat f_equal; lia.
Qed.

Lemma EncodeRune4 (b0 b1 b2 b3 : Z) :
  240 <= b0 <= 247 -> 128 <= b1 <= 191 -> 128 <= b2 <= 191 -> 128 <= b3 <= 191 ->
  let r := (b0 - 240) * 262144 + (b1 - 128) * 4096 + (b2 - 128) * 64 + (b3 - 128) in
  65536 <= r <= 1114111 ->
  utf8.EncodeRune r
  = String (byteOf b0)
      (String (byteOf b1) (String (byteOf b2) (String (byteOf b3) EmptyString))).
Proof.
  intros H0 H1 H2 H3 r Hr.
  unfold utf8.EncodeRune, utf8.low8, utf8.t4, utf8.tx, utf8.maskx, utf8.MaxRune.
  decide_cond ((0 <=? r) && (r <=? 127)) false.
  decide_cond ((0 <=? r) && (r <=? 2047)) false.
  decide_cond ((0 <=? r) && ((r <? 55296) || (57343 <? r) && (r <=? 65535))) false.
  decide_cond ((65535 <? r) && (r <=? 1114111)) true.
  rewrite shiftr_6, shiftr_12, shiftr_18, !land_63.
  replace ((r / 262144) mod 256) with (b0 - 240) by (unfold r; divmod).
  replace (((r / 4096) mod 256) mod 64) with (b1 - 128) by (unfold r; divmod).
  replace (((r / 64) mod 256) mod 64) with (b2 - 128) by (unfold r; divmod).
  replace ((r mod 256) mod 64) with (b3 - 128) by (unfold r; divmod).
  rewrite lor_t4, !lor_tx by lia.
  repeat f_equal; lia.
Qed.

(** ** UTF-8: decoding a valid sequence and encoding its rune *)

Lemma first_spec (b : Z) (sz : nat) (lo hi : Z) :
  utf8.first b = Some (sz, lo, hi) ->
  128 <= lo /\ hi <= 191
  /\ ((sz = 2%nat /\ 194 <= b <= 223)
      \/ (sz = 3%nat /\ 224 <= b <= 239
          /\ (b = 224 -> 160 <= lo) /\ (b = 237 -> hi <= 159))
      \/ (sz = 4%nat /\ 240 <= b <= 244
          /\ (b = 240 -> 144 <= lo) /\ (b = 244 -> hi <= 143))).
Proof.
  unfold utf8.first, utf8.locb, utf8.hicb.
  repeat match goal with
         | |- context [if ?c then _ else _] =>
             let E := fresh "E" in destruct c eqn:E
         end;
    intros Heq; inversion Heq; subst; clear Heq;
    rewrite ?Z.ltb_lt, ?Z.ltb_ge, ?Z.leb_le, ?Z.leb_gt, ?Z.eqb_eq, ?Z.eqb_neq in *;
    (split; [lia | split; [lia |]]);
    first [ left; lia | right; left; lia | right; right; lia ].
Qed.

Lemma byteAt_0 (c : ascii) (s : string) : byteAt (String c s) 0 = byteVal c.
Proof. reflexivity. Qed.
Lemma byteAt_1 (c d : ascii) (s : string) :
  byteAt (String c (String d s)) 1 = byteVal d.
Proof. reflexivity. Qed.
Lemma byteAt_2 (c d e : ascii) (s : string) :
  byteAt (String c (String d (String e s))) 2 = byteVal e.
Proof. reflexivity. Qed.
Lemma byteAt_3 (c d e f : ascii) (s : string) :
  byteAt (String c (String d (String e (String f s)))) 3 = byteVal f.
Proof. reflexivity. Qed.

Lemma range_of_check (x lo hi : Z) :
  (x <? lo) || (hi <? x) = false -> lo <= x <= hi.
Proof. rewrite orb_false_iff, !Z.ltb_ge. lia. Qed.

Lemma not_RuneError_1 (r : Z) (n : nat) :
  (utf8.RuneError, 1%nat) = (r, n) ->
  (r =? utf8.RuneError) && (n =? 1)%nat = false -> False.
Proof. intros Heq. inversion Heq; subst. discriminate. Qed.

Lemma DecodeRune_sequence (c0 : ascii) (s1 : string) (r : Z) (n : nat) :
  128 <= byteVal c0 ->
  utf8.DecodeRuneInString (String c0 s1) = (r, n) ->
  (r =? utf8.RuneError) && (n =? 1)%nat = false ->
  exists bytes rest,
    String c0 s1 = bytes +:+ rest
    /\ String.length bytes = n
    /\ takeBytes n (String c0 s1) = bytes
    /\ dropBytes n (String c0 s1) = rest
    /\ (2 <= n)%nat
    /\ utf8.EncodeRune r = bytes
    /\ 128 <= r
    /\ (forall t, utf8.DecodeRuneInString (bytes +:+ t) = (r, n)).
Proof.
  intros Hb0 Hdec Hok. unfold utf8.DecodeRuneInString in Hdec.
  rewrite byteAt_0 in Hdec.
  change ((String.length (String c0 s1) <? 1)%nat) with false in Hdec.
  cbv iota in Hdec. unfold utf8.RuneSelf in Hdec.
  replace (byteVal c0 <? 128) with false in Hdec by (symmetry; zbool).
  destruct (utf8.first (byteVal c0)) as [[[sz lo] hi]|] eqn:Hfirst;
    [|exfalso; exact (not_RuneError_1 _ _ Hdec Hok)].
  destruct (first_spec _ _ _ _ Hfirst) as [Hlo [Hhi Hcases]].
  destruct ((String.length (String c0 s1) <? sz)%nat) eqn:Hlen;
    [exfalso; exact (not_RuneError_1 _ _ Hdec Hok) |].
  apply Nat.ltb_ge in Hlen.
  destruct s1 as [|c1 s2];
    [exfalso; cbn [String.length] in Hlen;
     destruct Hcases as [[-> _]|[[-> _]|[-> _]]]; lia |].
  rewrite byteAt_1 in Hdec.
  destruct ((byteVal c1 <? lo) || (hi <? byteVal c1)) eqn:H1;
    [exfalso; exact (not_RuneError_1 _ _ Hdec Hok) |].
  apply range_of_check in H1.
  pose proof (byteVal_range c0) as R0.
  destruct Hcases as [[-> H0]|[[-> [H0 [Hlo' Hhi']]]|[-> [H0 [Hlo' Hhi']]]]].
  - (* two bytes *)
    change ((2 <=? 2)%nat) with true in Hdec. cbv iota in Hdec.
    unfold utf8.mask2, utf8.maskx in Hdec.
    rewrite rune2 in Hdec by lia. inversion Hdec; subst r n; clear Hdec.
    exists (String c0 (String c1 EmptyString)), s2.
    split; [reflexivity |]. split; [reflexivity |]. split; [reflexivity |].
    split; [reflexivity |]. split; [lia |]. split.
    { rewrite EncodeRune2 by lia. now rewrite !byteOf_byteVal. }
    split; [lia |].
    intros t. unfold utf8.DecodeRuneInString.
    rewrite !append_cons, append_nil_l, byteAt_0, byteAt_1.
    change ((String.length (String c0 (String c1 t)) <? 1)%nat) with false.
    cbv iota. unfold utf8.RuneSelf.
    replace (byteVal c0 <? 128) with false by (symmetry; zbool).
    rewrite Hfirst. cbn [String.length Nat.ltb Nat.leb].
    replace ((byteVal c1 <? lo) || (hi <? byteVal c1)) with false
      by (symmetry; zbool).
    change ((2 <=? 2)%nat) with true. cbv iota.
    unfold utf8.mask2, utf8.maskx. now rewrite rune2 by lia.
  - (* three bytes *)
    change ((3 <=? 2)%nat) with false in Hdec. cbv iota in Hdec.
    destruct s2 as [|c2 s3]; [exfalso; cbn [String.length] in Hlen; lia |].
    rewrite byteAt_2 in Hdec.
    destruct ((byteVal c2 <? utf8.locb) || (utf8.hicb <? byteVal c2)) eqn:H2;
      [exfalso; exact (not_RuneError_1 _ _ Hdec Hok) |].
    apply range_of_check in H2. unfold utf8.locb, utf8.hicb in H2.
    change ((3 <=? 3)%nat) with true in Hdec. cbv iota in Hdec.
    unfold utf8.mask3, utf8.maskx in Hdec.
    rewrite rune3 in Hdec by lia. inversion Hdec; subst r n; clear Hdec.
    exists (String c0 (String c1 (String c2 EmptyString))), s3.
    split; [reflexivity |]. split; [reflexivity |]. split; [reflexivity |].
    split; [reflexivity |]. split; [lia |]. split.
    { rewrite EncodeRune3 by lia. now rewrite !byteOf_byteVal. }
    split; [lia |].
    intros t. unfold utf8.DecodeRuneInString.
    rewrite !append_cons, append_nil_l, byteAt_0, byteAt_1, byteAt_2.
    change ((String.length (String c0 (String c1 (String c2 t))) <? 1)%nat)
      with false.
    cbv iota. unfold utf8.RuneSelf.
    replace (byteVal c0 <? 128) with false by (symmetry; zbool).
    rewrite Hfirst. cbn [String.length Nat.ltb Nat.leb].
    replace ((byteVal c1 <? lo) || (hi <? byteVal c1)) with false
      by (symmetry; zbool).
    unfold utf8.locb, utf8.hicb.
    replace ((byteVal c2 <? 128) || (191 <? byteVal c2)) with false
      by (symmetry; zbool).
    unfold utf8.mask3, utf8.maskx. now rewrite rune3 by lia.
  - (* four bytes *)
    change ((4 <=? 2)%nat) with false in Hdec. cbv iota in Hdec.
    destruct s2 as [|c2 s3]; [exfalso; cbn [String.length] in Hlen; lia |].
    rewrite byteAt_2 in Hdec.
    destruct ((byteVal c2 <? utf8.locb) || (utf8.hicb <? byteVal c2)) eqn:H2;
      [exfalso; exact (not_RuneError_1 _ _ Hdec Hok) |].
    apply range_of_check in H2. unfold utf8.locb, utf8.hicb in H2.
    change ((4 <=? 3)%nat) with false in Hdec. cbv iota in Hdec.
    destruct s3 as [|c3 s4]; [exfalso; cbn [String.length] in Hlen; lia |].
    rewrite byteAt_3 in Hdec.
    destruct ((byteVal c3 <? utf8.locb) || (utf8.hicb <? byteVal c3)) eqn:H3;
      [exfalso; exact (not_RuneError_1 _ _ Hdec Hok) |].
    apply range_of_check in H3. unfold utf8.locb, utf8.hicb in H3.
    unfold utf8.mask4, utf8.maskx in Hdec.
    rewrite rune4 in Hdec by lia. inversion Hdec; subst r n; clear Hdec.
    exists (String c0 (String c1 (String c2 (String c3 EmptyString)))), s4.
    split; [reflexivity |]. split; [reflexivity |]. split; [reflexivity |].
    split; [reflexivity |]. split; [lia |]. split.
    { rewrite EncodeRune4 by lia. now rewrite !byteOf_byteVal. }
    split; [lia |].
    intros t. unfold utf8.DecodeRuneInString.
    rewrite !append_cons, append_nil_l, byteAt_0, byteAt_1, byteAt_2, byteAt_3.
    change ((String.length (String c0 (String c1 (String c2 (String c3 t)))) <? 1)%nat)
      with false.
    cbv iota. unfold utf8.RuneSelf.
    replace (byteVal c0 <? 128) with false by (symmetry; zbool).
    rewrite Hfirst. cbn [String.length Nat.ltb Nat.leb].
    replace ((byteVal c1 <? lo) || (hi <? byteVal c1)) with false
      by (symmetry; zbool).
    unfold utf8.locb, utf8.hicb.
    replace ((byteVal c2 <? 128) || (191 <? byteVal c2)) with false
      by (symmetry; zbool).
    replace ((byteVal c3 <? 128) || (191 <? byteVal c3)) with false
      by (symmetry; zbool).
    unfold utf8.mask4, utf8.maskx. now rewrite rune4 by lia.
Qed.

(** ** Strings as byte sequences *)

Lemma length_append (a b : string) :
  String.length (a +:+ b) = (String.length a + String.length b)%nat.
Proof.
  induction a as [|c a IH]; [reflexivity |].
  rewrite append_cons. cbn [String.length]. now rewrite IH.
Qed.

Lemma dropBytes_append (a b : string) :
  dropBytes (String.length a) (a +:+ b) = b.
Proof.
  induction a as [|c a IH]; [now destruct b |].
  rewrite append_cons. cbn [String.length dropBytes]. exact IH.
Qed.

(** ** JSON strings: decoding what the encoder wrote *)

(** One turn of the decoder on the text that the encoder writes for an
    ASCII byte. *)
Lemma unquoteBody_ascii (c : ascii) (m : nat) (rest : string) :
  byteVal c < 128 ->
  json.unquoteBody (S m)
    ((if json.htmlSafe (byteVal c) then String c EmptyString
      else json.escapeByte c) +:+ rest)
  = json.emit (String c EmptyString) (json.unquoteBody m rest).
Proof.
  destruct c as [[] [] [] [] [] [] [] []]; intros Hc;
    first [ exfalso; vm_compute in Hc; discriminate Hc | reflexivity ].
Qed.

(** One turn of the decoder on a byte that is not ASCII. *)
Lemma unquoteBody_multibyte (c : ascii) (s : string) (m : nat) :
  128 <= byteVal c ->
  json.unquoteBody (S m) (String c s)
  = json.emit (utf8.EncodeRune (utf8.DecodeRuneInString (String c s)).1)
      (json.unquoteBody m
         (dropBytes (utf8.DecodeRuneInString (String c s)).2 (String c s))).
Proof.
  intros Hc. cbn [json.unquoteBody]. cbv zeta. unfold utf8.RuneSelf.
  replace (byteVal c =? 34) with false by (symmetry; zbool).
  replace (byteVal c =? 92) with false by (symmetry; zbool).
  replace (byteVal c <? 32) with false by (symmetry; zbool).
  replace (byteVal c <? 128) with false by (symmetry; zbool).
  now destruct (utf8.DecodeRuneInString (String c s)).
Qed.

(** One turn of the decoder on the escape of a line or paragraph
    separator. *)
Lemma unquoteBody_separator (r : Z) (m : nat) (rest : string) :
  r = 8232 \/ r = 8233 ->
  json.unquoteBody (S m)
    ("\u202" +:+ String (json.hexDigit (Z.land r 15)) rest)
  = json.emit (utf8.EncodeRune r) (json.unquoteBody m rest).
Proof. intros [->| ->]; reflexivity. Qed.

(** One turn of the decoder at the closing quote. *)
Lemma unquoteBody_quote (m : nat) (tail : string) :
  json.unquoteBody (S m) (String json.quote tail) = ok (EmptyString, tail).
Proof. reflexivity. Qed.

Lemma DecodeRune_ascii (c : ascii) (s : string) :
  byteVal c < 128 -> utf8.DecodeRuneInString (String c s) = (byteVal c, 1%nat).
Proof.
  intros Hc. unfold utf8.DecodeRuneInString. rewrite byteAt_0.
  change ((String.length (String c s) <? 1)%nat) with false. cbv iota.
  unfold utf8.RuneSelf. now replace (byteVal c <? 128) with true by (symmetry; zbool).
Qed.

(** The encoder writes no fewer bytes than it reads, one turn at a
    time; so the decoder, with the length of the text as its fuel, has a
    turn for every turn of the encoder and one for the closing quote. *)
Lemma unquote_appendBody (n : nat) :
  forall (src tail : string) (k m : nat),
    (String.length src <= n)%nat ->
    utf8.validFrom k src = true ->
    (String.length (json.appendBody n src) < m)%nat ->
    json.unquoteBody m (json.appendBody n src +:+ String json.quote tail)
    = ok (src, tail).
Proof.
  induction n as [|n IH]; intros src tail k m Hlen Hvalid Hfuel.
  - destruct src; [|cbn [String.length] in Hlen; lia].
    cbn [json.appendBody] in *. rewrite append_nil_l.
    destruct m; [cbn [String.length] in Hfuel; lia | apply unquoteBody_quote].
  - destruct src as [|c rest].
    { cbn [json.appendBody] in *. rewrite append_nil_l.
      destruct m; [cbn [String.length] in Hfuel; lia | apply unquoteBody_quote]. }
    cbn [String.length] in Hlen.
    destruct k as [|k]; [discriminate Hvalid |].
    cbn [utf8.validFrom] in Hvalid.
    cbn [json.appendBody] in Hfuel |- *. cbv zeta in Hfuel |- *.
    unfold utf8.RuneSelf in Hfuel |- *.
    destruct (byteVal c <? 128) eqn:Hc.
    + (* an ASCII byte *)
      apply Z.ltb_lt in Hc.
      rewrite (DecodeRune_ascii c rest Hc) in Hvalid.
      replace ((byteVal c =? utf8.RuneError) && (1 =? 1)%nat) with false in Hvalid
        by (symmetry; unfold utf8.RuneError; zbool).
      cbn [dropBytes] in Hvalid.
      rewrite length_append in Hfuel.
      destruct m as [|m]; [lia |].
      rewrite append_assoc, (unquoteBody_ascii c m _ Hc).
      rewrite (IH rest tail k m); [reflexivity | lia | exact Hvalid |].
      assert (1 <= String.length
                     (if json.htmlSafe (byteVal c) then String c EmptyString
                      else json.escapeByte c))%nat.
      { destruct (json.htmlSafe (byteVal c)); [cbn; lia |].
        unfold json.escapeByte.
        repeat match goal with
               | |- context [if ?b then _ else _] => destruct b
               end; rewrite ?length_append; cbn [String.length]; lia. }
      lia.
    + (* the first byte of a sequence *)
      apply Z.ltb_ge in Hc.
      destruct (utf8.DecodeRuneInString (String c rest)) as [r size] eqn:Hdec.
      destruct ((r =? utf8.RuneError) && (size =? 1)%nat) eqn:Herr;
        [discriminate Hvalid |].
      destruct (DecodeRune_sequence c rest r size Hc Hdec Herr)
        as [bytes [rest' [Hsplit [Hlenb [Htake [Hdrop [Hsize [Henc [Hr Hprefix]]]]]]]]].
      rewrite Htake, Hdrop in *.
      destruct bytes as [|c0 bytes']; [cbn [String.length] in Hlenb; lia |].
      assert (Hc0 : c0 = c) by (rewrite append_cons in Hsplit; now injection Hsplit).
      subst c0.
      assert (Hrest' : (String.length rest' <= n)%nat).
      { apply (f_equal String.length) in Hsplit.
        rewrite length_append in Hsplit. cbn [String.length] in Hsplit. lia. }
      destruct m as [|m]; [lia |].
      destruct ((r =? 8232) || (r =? 8233)) eqn:Hsep.
      * (* a line or paragraph separator, escaped *)
        rewrite !append_assoc, (append_cons _ EmptyString), append_nil_l.
        rewrite unquoteBody_separator
          by (rewrite orb_true_iff, !Z.eqb_eq in Hsep; exact Hsep).
        rewrite Henc.
        rewrite !length_append in Hfuel. cbn [String.length] in Hfuel.
        rewrite (IH rest' tail k m); [|lia | exact Hvalid | lia].
        cbn [json.emit]. now rewrite Hsplit.
      * (* any other rune, copied *)
        rewrite append_assoc. rewrite append_cons.
        rewrite (unquoteBody_multibyte c _ m Hc).
        rewrite <- append_cons, (Hprefix _). cbn [fst snd].
        rewrite Henc, <- Hlenb, dropBytes_append.
        rewrite length_append in Hfuel. cbn [String.length] in Hfuel.
        rewrite (IH rest' tail k m); [|lia | exact Hvalid | lia].
        cbn [json.emit]. now rewrite Hsplit.
Qed.

(** ** [json.Unmarshal] after [json.Marshal] *)

Lemma skipSpace_not_space (c : ascii) (s : string) :
  json.isSpace c = false -> json.skipSpace (String c s) = String c s.
Proof. intros Hc. cbn [json.skipSpace]. now rewrite Hc. Qed.

Lemma quote_not_space : json.isSpace json.quote = false.
Proof. reflexivity. Qed.

(** A string literal that the encoder wrote, read as a value. *)
Lemma stringValue_appendString (s tail current : string) :
  utf8.ValidString s = true ->
  json.stringValue (json.appendString s +:+ tail) current = ok (s, tail).
Proof.
  intros Hvalid. unfold json.appendString. rewrite append_cons.
  cbn [json.stringValue].
  change (byteVal json.quote =? 34) with true. cbv iota.
  rewrite append_assoc, append_cons, append_nil_l.
  apply (unquote_appendBody _ _ _ (String.length s)); [lia | exact Hvalid |].
  rewrite length_append. cbn [String.length]. lia.
Qed.

Lemma Unmarshal_Marshal_string (s current : string) :
  utf8.ValidString s = true ->
  json.Unmarshal_string (json.Marshal_string s) current = ok s.
Proof.
  intros Hvalid. unfold json.Unmarshal_string, json.Marshal_string.
  assert (Hskip : json.skipSpace (json.appendString s) = json.appendString s)
    by reflexivity.
  rewrite Hskip, <- (append_empty_r (json.appendString s)).
  now rewrite stringValue_appendString.
Qed.

(** The elements that the encoder wrote, read back one by one. *)
Lemma elements_joinElements (l : list string) :
  forall (acc : list string) (tail : string) (fuel : nat),
    l <> [] ->
    Forall (fun e => utf8.ValidString e = true) l ->
    (List.length l <= fuel)%nat ->
    json.elements fuel (json.joinElements l +:+ String "]" tail) acc
    = ok (acc ++ l, tail).
Proof.
  induction l as [|e l IH]; intros acc tail fuel Hne Hvalid Hfuel; [congruence |].
  inversion Hvalid as [|? ? He Hl]; subst.
  destruct fuel as [|fuel]; [cbn [List.length] in Hfuel; lia |].
  cbn [List.length] in Hfuel. cbn [json.elements].
  destruct l as [|e' l].
  - cbn [json.joinElements]. rewrite stringValue_appendString by exact He.
    reflexivity.
  - change (json.joinElements (e :: e' :: l))
      with (json.appendString e +:+ "," +:+ json.joinElements (e' :: l)).
    rewrite !append_assoc. rewrite stringValue_appendString by exact He.
    rewrite append_cons, append_nil_l.
    change (json.skipSpace (String "," ?x)) with (String "," x).
    cbn [json.skipSpace]. change (json.isSpace ",") with false. cbv iota.
    change (byteVal "," =? 44) with true. cbv iota.
    assert (Hskip : forall x, json.skipSpace (json.joinElements (e' :: l) +:+ x)
                              = json.joinElements (e' :: l) +:+ x).
    { intros x. destruct l; cbn [json.joinElements]; unfold json.appendString;
        rewrite !append_cons; apply skipSpace_not_space, quote_not_space. }
    rewrite Hskip, (IH (acc ++ [e]) tail fuel); [|discriminate | exact Hl | cbn [List.length] in *; lia].
    now rewrite <- app_assoc.
Qed.

Lemma joinElements_length (l : list string) :
  (List.length l <= String.length (json.joinElements l))%nat.
Proof.
  induction l as [|e l IH]; [cbn; lia |].
  destruct l as [|e' l].
  - cbn [json.joinElements List.length]. unfold json.appendString.
    cbn [String.length]. lia.
  - change (json.joinElements (e :: e' :: l))
      with (json.appendString e +:+ "," +:+ json.joinElements (e' :: l)).
    rewrite !length_append. cbn [List.length String.length] in IH |- *. lia.
Qed.

Lemma joinElements_starts (e : string) (l : list string) (tail : string) :
  exists body,
    json.joinElements (e :: l) +:+ tail = String json.quote body.
Proof.
  destruct l; cbn [json.joinElements]; unfold json.appendString;
    rewrite !append_cons; eexists; reflexivity.
Qed.

Lemma Unmarshal_Marshal_strings (l : list string) :
  Forall (fun e => utf8.ValidString e = true) l ->
  json.Unmarshal_strings (json.Marshal_strings (Some l)) = ok (Some l).
Proof.
  intros Hvalid. destruct l as [|e l]; [reflexivity |].
  unfold json.Marshal_strings, json.Unmarshal_strings.
  rewrite append_cons, append_nil_l.
  rewrite skipSpace_not_space by reflexivity.
  change (byteVal "[" =? 91) with true. cbv iota.
  destruct (joinElements_starts e l "]") as [body Hbody].
  pose proof (elements_joinElements (e :: l) [] EmptyString
                (String.length (json.joinElements (e :: l) +:+ "]"))
                ltac:(discriminate) Hvalid) as Helems.
  rewrite length_append in Helems.
  pose proof (joinElements_length (e :: l)) as Hlen.
  specialize (Helems ltac:(lia)). rewrite <- length_append in Helems.
  rewrite Hbody in Helems |- *.
  rewrite skipSpace_not_space by reflexivity.
  change (byteVal json.quote =? 93) with false. cbv iota.
  rewrite Helems. reflexivity.
Qed.

(** C10 (as amended). For a [StringOrArray] that is not nil and whose
    elements are valid UTF-8, unmarshalling what [MarshalJSON] wrote
    gives the value back. One element is written as a bare JSON string,
    any other number of elements as a JSON array. *)
Theorem StringOrArray_roundtrip (l : list string) :
  Forall (fun e => utf8.ValidString e = true) l ->
  UnmarshalJSON (MarshalJSON (Some l)) = ok (Some l)
  /\ (forall only, l = [only] ->
      MarshalJSON (Some l) = json.Marshal_string only
      /\ byteAt (MarshalJSON (Some l)) 0 = byteVal json.quote)
  /\ (List.length l <> 1%nat ->
      MarshalJSON (Some l) = "[" +:+ json.joinElements l +:+ "]").
Proof.
  intros Hvalid. split; [|split].
  - destruct l as [|a [|b l]].
    + reflexivity.
    + inversion Hvalid as [|? ? Ha _]; subst.
      unfold UnmarshalJSON, MarshalJSON.
      change (byteAt (json.Marshal_string a) 0 =? 91) with false.
      rewrite andb_false_r. now rewrite Unmarshal_Marshal_string.
    + unfold UnmarshalJSON.
      change (MarshalJSON (Some (a :: b :: l)))
        with (json.Marshal_strings (Some (a :: b :: l))).
      rewrite Unmarshal_Marshal_strings by exact Hvalid.
      unfold json.Marshal_strings. rewrite append_cons, append_nil_l.
      rewrite byteAt_0. change (byteVal "[" =? 91) with true.
      rewrite andb_true_r. cbn [String.length]. rewrite length_append.
      cbn [String.length].
      now replace (1 <? S (String.length (json.joinElements (a :: b :: l)) + 1))%nat
        with true by (symmetry; apply Nat.ltb_lt; lia).
  - intros only ->. split; reflexivity.
  - intros Hlen. destruct l as [|a [|b l]]; [reflexivity | | reflexivity].
    cbn [List.length] in Hlen. lia.
Qed.

(** Two scopes, and a single one. *)
Lemma StringOrArray_roundtrip_witness :
  Forall (fun e => utf8.ValidString e = true) ["customer.read"; "customer.write"]
  /\ UnmarshalJSON (MarshalJSON (Some ["customer.read"; "customer.write"]))
     = ok (Some ["customer.read"; "customer.write"]).
Proof.
  split; [repeat constructor |].
  apply (StringOrArray_roundtrip ["customer.read"; "customer.write"]).
  repeat constructor.
Defined.

(** C10, the claim as it stands fails on the nil value: it is written
    as [null], and [null] is read as the array of one empty string. *)
Lemma StringOrArray_nil_not_restored :
  MarshalJSON None = "null"
  /\ UnmarshalJSON (MarshalJSON None) = ok (Some [EmptyString])
  /\ UnmarshalJSON (MarshalJSON None) <> ok None.
Proof. split; [reflexivity |]. split; [reflexivity | discriminate]. Qed.

(** A byte that is no valid UTF-8 is not restored either: the encoder
    writes the escape of the replacement character for it. *)
Lemma StringOrArray_invalid_byte_not_restored :
  let s := String (byteOf 255) EmptyString in
  utf8.ValidString s = false
  /\ UnmarshalJSON (MarshalJSON (Some [s]))
     = ok (Some [String (byteOf 239) (String (byteOf 191) (String (byteOf 189) EmptyString))])
  /\ UnmarshalJSON (MarshalJSON (Some [s])) <> ok (Some [s]).
Proof.
  intros s. split; [reflexivity |]. split; [reflexivity |].
  intros Heq. vm_compute in Heq. discriminate Heq.
Qed.

(** * Further properties of the client *)

(** ** What the mapper can return *)

(** X1. Whatever the mapper returns as an error has code 0 or a code
    above 399, a code other than 0 being the status code of a response
    without transport error. Its kind is the invalid-grant kind only for
    a transport error whose text carries the marker: an HTTP error
    response is of the unknown kind whatever its body says. *)
Theorem checkForError_code_and_kind {X : Extern} (resp : option Response)
    (err : error) (errMessage : string) (e : APIError) :
  checkForError resp err errMessage = Some e ->
  (Code e = 0 \/ 399 < Code e)
  /\ (Code e <> 0 ->
      err = None /\ exists r, resp = Some r /\ Code e = StatusCode r)
  /\ (Type_ e = APIErrTypeInvalidGrant <->
      exists text, err = Some text /\ strings.occurs_in "invalid_grant" text)
  /\ (err = None -> Type_ e = APIErrTypeUnknown).
Proof.
  intros Hmap. destruct err as [text|].
  - rewrite checkForError_transport in Hmap. injection Hmap as <-.
    cbn [Code Type_]. split; [now left |]. split; [congruence |].
    split; [|discriminate].
    cbn [ParseAPIErrType].
    destruct (strings.Contains text "invalid_grant") eqn:Hc.
    + apply Contains_spec in Hc. split; [eauto | reflexivity].
    + apply Contains_false in Hc. split; [discriminate |].
      intros [text' [Heq Hocc]]. injection Heq as <-. contradiction.
  - assert (Hkind : Type_ e = APIErrTypeUnknown).
    { destruct resp as [r|]; cbn in Hmap.
      - destruct (IsError r); [|discriminate]. now injection Hmap as <-.
      - now injection Hmap as <-. }
    split; [|split; [|split; [|intros _; exact Hkind]]].
    + destruct resp as [r|].
      * destruct (IsError r) eqn:Herr.
        -- rewrite (checkForError_status r errMessage Herr) in Hmap.
           injection Hmap as <-. cbn [Code]. right.
           unfold IsError in Herr. now apply Z.ltb_lt in Herr.
        -- rewrite (checkForError_success r errMessage Herr) in Hmap. discriminate.
      * cbn in Hmap. injection Hmap as <-. now left.
    + intros Hcode. split; [reflexivity |]. destruct resp as [r|].
      * exists r. split; [reflexivity |].
        destruct (IsError r) eqn:Herr.
        -- rewrite (checkForError_status r errMessage Herr) in Hmap.
           now injection Hmap as <-.
        -- rewrite (checkForError_success r errMessage Herr) in Hmap. discriminate.
      * cbn in Hmap. injection Hmap as <-. cbn [Code] in Hcode. congruence.
    + rewrite Hkind. split; [intros Heq; symmetry in Heq; now apply kinds_differ in Heq |].
      intros [text [Heq _]]. discriminate.
Qed.

(** A refused grant, reported by the server with status 400: the kind
    of the error is the unknown one. *)
Lemma checkForError_code_and_kind_witness :
  let e := mkAPIError 400 "400 Bad Request: invalid_grant" APIErrTypeUnknown in
  checkForError (Some Scenario.grantRefused) None "could not get token" = Some e
  /\ Type_ e <> APIErrTypeInvalidGrant.
Proof.
  intros e. split; [reflexivity |].
  destruct (checkForError_code_and_kind (Some Scenario.grantRefused) None
              "could not get token" e eq_refl) as [_ [_ [_ Hkind]]].
  rewrite (Hkind eq_refl). discriminate.
Defined.

(** ** Every operation, from the request to the result *)

Lemma bind_finish {X : Extern} {A B : Type} (m : M (A * option APIError))
    (f : A -> B) (h : Heap) (errMessage : string) (nothing : A)
    (result : option Response -> Outcome A)
    (answer : Heap * (option Response * error)) :
  m h = finish errMessage nothing result answer ->
  bind m (fun r => ret (f r.1, r.2)) h
  = finish errMessage (f nothing)
      (fun resp => match result resp with
                   | Ret a => Ret (f a)
                   | Panic reason => Panic reason
                   end)
      answer.
Proof.
  intros Hm. unfold bind. rewrite Hm. unfold finish, ret.
  destruct (checkForError _ _ _); [reflexivity |].
  destruct (result _); reflexivity.
Qed.

(** A call whose request can be built hands exactly one request to the
    client, on the caller's heap extended by its own variables, and ends
    as [finish] says. Its result container, if it has one, is one of
    those variables. *)
Lemma perform_finish {X : Extern} {P : Process} (g : GoArpa) (ctx : Ctx)
    (c : Call) (h : Heap) :
  buildable c = true ->
  exists req own nothing result,
    perform g ctx c h
    = finish (errMessageOf c) nothing result
        (Execute (restyClient g) req (h ++ own))
    /\ isNil nothing = true
    /\ (forall resp,
        exists r, result (Some resp) = Ret r
                  /\ match r with
                     | ReturnedPointer p => p <> None
                     | ReturnedToken token cookies =>
                         token = Response_String resp
                         /\ cookies = Response_Cookies resp
                     end)
    /\ (forall p, Result req = Some p -> (List.length h <= p)%nat).
Proof.
  intros Hbuild.
  destruct c as [username password | accessToken customer
                | accessToken transaction | accessToken service
                | accessToken cookie mobile | accessToken cookie businessCode];
    cbn [perform errMessageOf].
  - eexists _, [], _, _. split; [|split; [|split]].
    + rewrite app_nil_r.
      apply (bind_finish _ (fun p => ReturnedToken p.1 p.2)), GetAdminToken_steps.
    + reflexivity.
    + intros resp. eexists. split; [reflexivity |]. split; reflexivity.
    + intros p Hp. exfalso. revert Hp.
      destruct (GetRequest_shape g ctx) as [hdr ->]. discriminate.
  - eexists _, _, _, _. split; [|split; [|split]].
    + rewrite app_assoc.
      apply (bind_finish _ ReturnedPointer), CreateCustomer_steps.
    + reflexivity.
    + intros resp. eexists. split; [reflexivity | discriminate].
    + intros p Hp. cbn [withMethodURL withResult Result] in Hp.
      injection Hp as <-. rewrite length_app. lia.
  - eexists _, _, _, _. split; [|split; [|split]].
    + rewrite app_assoc.
      apply (bind_finish _ ReturnedPointer), CreateTransaction_steps.
    + reflexivity.
    + intros resp. eexists. split; [reflexivity | discriminate].
    + intros p Hp. cbn [withMethodURL withResult Result] in Hp.
      injection Hp as <-. rewrite length_app. lia.
  - eexists _, _, _, _. split; [|split; [|split]].
    + rewrite app_assoc.
      apply (bind_finish _ ReturnedPointer), CreateService_steps.
    + reflexivity.
    + intros resp. eexists. split; [reflexivity | discriminate].
    + intros p Hp. cbn [withMethodURL withResult Result] in Hp.
      injection Hp as <-. rewrite length_app. lia.
  - destruct (buildable_request g ctx accessToken cookie) as [req Hreq].
    { unfold buildable in Hbuild. cbn [cookiesOf] in Hbuild.
      destruct cookie as [[|first rest]|]; try discriminate. eauto. }
    eexists _, _, _, _. split; [|split; [|split]].
    + apply (bind_finish _ ReturnedPointer), (GetCustomerByMobile_steps _ _ _ _ _ _ req Hreq).
    + reflexivity.
    + intros resp. eexists. split; [reflexivity | discriminate].
    + intros p Hp. cbn [withMethodURL withResult Result] in Hp.
      injection Hp as <-. lia.
  - destruct (buildable_request g ctx accessToken cookie) as [req Hreq].
    { unfold buildable in Hbuild. cbn [cookiesOf] in Hbuild.
      destruct cookie as [[|first rest]|]; try discriminate. eauto. }
    eexists _, _, _, _. split; [|split; [|split]].
    + apply (bind_finish _ ReturnedPointer),
        (GetCustomerByBusinessCode_steps _ _ _ _ _ _ req Hreq).
    + reflexivity.
    + intros resp. eexists. split; [reflexivity | discriminate].
    + intros p Hp. cbn [withMethodURL withResult Result] in Hp.
      injection Hp as <-. lia.
Qed.

Lemma finish_status {X : Extern} {A : Type} (errMessage : string) (nothing : A)
    (result : option Response -> Outcome A)
    (answer : Heap * (option Response * error)) (resp : Response) :
  answer.2 = (Some resp, None) -> IsError resp = true ->
  finish errMessage nothing result answer
  = Ret ((nothing,
          Some (mkAPIError (StatusCode resp) (statusMessage resp) APIErrTypeUnknown)),
         answer.1).
Proof.
  destruct answer as [h [r e]]. cbn [fst snd]. intros Heq Herr.
  injection Heq as -> ->. unfold finish. cbn [fst snd].
  now rewrite (checkForError_status resp errMessage Herr).
Qed.

(** X2. When the server answers with an error status, every operation
    returns nothing (a nil pointer; for the token request the empty
    token and no cookies) and an error whose code is the status code,
    whose message is the status line, followed by the rendering of the
    error body when there is one, and whose kind is the unknown one. *)
Theorem error_status_nil_result {X : Extern} {P : Process}
    (client : resty_Client) (resp : Response) :
  IsError resp = true ->
  (forall req h, (Execute client req h).2 = (Some resp, None)) ->
  (forall (g : GoArpa) (ctx : Ctx) (c : Call) (h : Heap),
      restyClient g = client -> buildable c = true ->
      exists r h',
        perform g ctx c h
        = Ret ((r, Some (mkAPIError (StatusCode resp) (statusMessage resp)
                           APIErrTypeUnknown)), h')
        /\ isNil r = true)
  /\ (forall (g : Legacy.GoArpa) (ctx : Ctx) (username password : string)
        (h : Heap),
      Legacy.restyClient g = client ->
      exists h',
        Legacy.AdminAuthenticate g ctx username password h
        = Ret ((None,
                Some (mkAPIError (StatusCode resp) (statusMessage resp)
                        APIErrTypeUnknown)), h')).
Proof.
  intros Herr Hanswer. split.
  - intros g ctx c h Hclient Hbuild. subst client.
    destruct (perform_finish g ctx c h Hbuild)
      as [req [own [nothing [result [Hrun [Hnil _]]]]]].
    exists nothing. eexists. split; [|exact Hnil].
    rewrite Hrun. now apply finish_status.
  - intros g ctx username password h Hclient. subst client.
    eexists. rewrite AdminAuthenticate_steps. now apply finish_status.
Qed.

(** A server that answers every request with status 500 and the body
    [{"error":"unknown_error"}], and the creation of a customer. *)
Lemma error_status_nil_result_witness :
  IsError Scenario.serverError = true
  /\ (forall req h,
      (Execute Scenario.failingServer req h).2 = (Some Scenario.serverError, None))
  /\ exists r h',
      perform (P := Sample.process) (Sample.clientOn Scenario.failingServer)
        Sample.background (CallCreateCustomer "token" Sample.customer) []
      = Ret ((r, Some (mkAPIError 500 "500 Internal Server Error: unknown_error"
                         APIErrTypeUnknown)), h')
      /\ isNil r = true.
Proof.
  split; [reflexivity |]. split; [intros req h; reflexivity |].
  destruct (error_status_nil_result (P := Sample.process) Scenario.failingServer
              Scenario.serverError eq_refl (fun req h => eq_refl)) as [Hops _].
  exact (Hops (Sample.clientOn Scenario.failingServer) Sample.background
           (CallCreateCustomer "token" Sample.customer) [] eq_refl eq_refl).
Defined.


Lemma perform_lacks_cookie {X : Extern} {P : Process} (g : GoArpa) (ctx : Ctx)
    (c : Call) (h : Heap) :
  buildable c = false ->
  perform g ctx c h = Panic "index out of range [0] with length 0".
Proof.
  intros Hbuild. unfold buildable in Hbuild.
  destruct c as [username password | accessToken customer
                | accessToken transaction | accessToken service
                | accessToken cookie mobile | accessToken cookie businessCode];
    cbn [cookiesOf] in Hbuild; try discriminate; cbn [perform].
  - assert (Hlen : len cookie = 0)
      by (destruct cookie as [[|first rest]|]; [reflexivity | discriminate | reflexivity]).
    unfold bind.
    now rewrite (GetCustomerByMobile_panics _ _ _ _ _ _ _
                   (empty_cookie_panics g ctx accessToken cookie Hlen)).
  - assert (Hlen : len cookie = 0)
      by (destruct cookie as [[|first rest]|]; [reflexivity | discriminate | reflexivity]).
    unfold bind.
    now rewrite (GetCustomerByBusinessCode_panics _ _ _ _ _ _ _
                   (empty_cookie_panics g ctx accessToken cookie Hlen)).
Qed.


(** ** What the operations leave in the heap *)

Lemma finish_heap {X : Extern} {A : Type} (errMessage : string) (nothing : A)
    (result : option Response -> Outcome A)
    (answer : Heap * (option Response * error)) (r : A * option APIError)
    (h' : Heap) :
  finish errMessage nothing result answer = Ret (r, h') -> h' = answer.1.
Proof.
  unfold finish. destruct (checkForError _ _ _).
  - intros Heq. now injection Heq.
  - destruct (result _); [|discriminate]. intros Heq. now injection Heq.
Qed.

Lemma deref_own {X : Extern} (h own : Heap) (p : nat) :
  (p < List.length h)%nat -> deref (h ++ own) p = deref h p.
Proof. intros Hp. unfold deref. now apply lookup_app_l. Qed.

(** X4. With a client that writes through the result pointer of the
    request only, an operation leaves every variable of its caller as it
    was: whatever it returns, it has written to variables of its own. *)
Theorem perform_keeps_callers_heap {X : Extern} {P : Process} (g : GoArpa)
    (ctx : Ctx) (c : Call) (h h' : Heap) (r : Returned * option APIError) :
  writesOnlyResult (restyClient g) ->
  perform g ctx c h = Ret (r, h') ->
  forall p, (p < List.length h)%nat -> deref h' p = deref h p.
Proof.
  intros Hframe Hrun p Hp.
  destruct (buildable c) eqn:Hbuild.
  - destruct (perform_finish g ctx c h Hbuild)
      as [req [own [nothing [result [Hsteps [_ [_ Hres]]]]]]].
    rewrite Hsteps in Hrun. apply finish_heap in Hrun. subst h'.
    destruct (Execute (restyClient g) req (h ++ own)) as [h1 answer] eqn:Hexec.
    cbn [fst]. rewrite (Hframe _ _ _ _ Hexec p).
    + now apply deref_own.
    + intros Heq. apply Hres in Heq. lia.
  - rewrite (perform_lacks_cookie g ctx c h Hbuild) in Hrun. discriminate.
Qed.

(** A server that decodes nothing, and a caller with one variable of
    its own. *)
Lemma perform_keeps_callers_heap_witness :
  writesOnlyResult Scenario.silentServer
  /\ forall r h',
      perform (P := Sample.process) (Sample.clientOn Scenario.silentServer)
        Sample.background (CallCreateCustomer "token" Sample.customer)
        [VJWT Sample.decodedToken]
      = Ret (r, h') ->
      deref h' 0 = Some (VJWT Sample.decodedToken).
Proof.
  assert (Hframe : writesOnlyResult Scenario.silentServer).
  { intros req h h' answer Hexec p _. cbn in Hexec. now inversion Hexec. }
  split; [exact Hframe |]. intros r h' Hrun.
  apply (perform_keeps_callers_heap (P := Sample.process)
           (Sample.clientOn Scenario.silentServer) Sample.background
           (CallCreateCustomer "token" Sample.customer)
           [VJWT Sample.decodedToken] h' r Hframe Hrun 0%nat).
  cbn [List.length]. lia.
Defined.

(** X5. [CreateTransaction] and [CreateService] hand a copy of their
    response variable to [SetResult] and return the address of the
    variable: with a client that writes through the result pointer only,
    the response they return is the zero value, whatever the server
    sent. *)
Theorem create_operations_return_zero_value {X : Extern} {P : Process}
    (g : GoArpa) (ctx : Ctx) (accessToken : string) (h : Heap) :
  writesOnlyResult (restyClient g) ->
  (forall transaction r e h',
      CreateTransaction g ctx accessToken transaction h = Ret ((r, e), h') ->
      (e = None -> r = Some (List.length h))
      /\ deref h' (List.length h)
         = Some (VCreateTransactionResponse (mkCreateTransactionResponse None None)))
  /\ (forall service r e h',
      CreateService g ctx accessToken service h = Ret ((r, e), h') ->
      (e = None -> r = Some (List.length h))
      /\ deref h' (List.length h)
         = Some (VCreateServiceResponse (mkCreateServiceResponse "" 0))).
Proof.
  intros Hframe. split.
  - intros transaction r e h' Hrun. rewrite CreateTransaction_steps in Hrun.
    cbv zeta in Hrun.
    destruct (Execute _ _ _) as [h1 answer] eqn:Hexec.
    pose proof (finish_heap _ _ _ _ _ _ Hrun) as Hh. cbn [fst] in Hh. subst h1.
    split.
    + intros ->. unfold finish in Hrun. cbn [fst snd] in Hrun.
      destruct (checkForError _ _ _); inversion Hrun. reflexivity.
    + rewrite (Hframe _ _ _ _ Hexec (List.length h)).
      * unfold deref. rewrite lookup_app_l by (rewrite length_app; simpl; lia).
        apply lookup_alloc.
      * cbn [withMethodURL withResult Result]. rewrite length_app. simpl.
        intros Heq. injection Heq. lia.
  - intros service r e h' Hrun. rewrite CreateService_steps in Hrun.
    cbv zeta in Hrun.
    destruct (Execute _ _ _) as [h1 answer] eqn:Hexec.
    pose proof (finish_heap _ _ _ _ _ _ Hrun) as Hh. cbn [fst] in Hh. subst h1.
    split.
    + intros ->. unfold finish in Hrun. cbn [fst snd] in Hrun.
      destruct (checkForError _ _ _); inversion Hrun. reflexivity.
    + rewrite (Hframe _ _ _ _ Hexec (List.length h)).
      * unfold deref. rewrite lookup_app_l by (rewrite length_app; simpl; lia).
        apply lookup_alloc.
      * cbn [withMethodURL withResult Result]. rewrite length_app. simpl.
        intros Heq. injection Heq. lia.
Qed.

(** A server that answers with a transaction of one line: the caller
    does not get it. *)
Lemma create_operations_return_zero_value_witness :
  writesOnlyResult Scenario.transactionServer
  /\ forall r e h',
      CreateTransaction (P := Sample.process)
        (Sample.clientOn Scenario.transactionServer) Sample.background "token"
        Scenario.transaction []
      = Ret ((r, e), h') ->
      (e = None -> r = Some 0%nat)
      /\ deref h' 0
         = Some (VCreateTransactionResponse (mkCreateTransactionResponse None None)).
Proof.
  assert (Hframe : writesOnlyResult Scenario.transactionServer).
  { intros req h h' answer Hexec p Hne. cbn in Hexec.
    destruct (Result req) as [q|] eqn:Hres; inversion Hexec; subst; [|reflexivity].
    unfold deref, store. apply list_lookup_insert_ne. congruence. }
  split; [exact Hframe |].
  exact (proj1 (create_operations_return_zero_value (P := Sample.process)
                  (Sample.clientOn Scenario.transactionServer) Sample.background
                  "token" [] Hframe) Scenario.transaction).
Defined.

(** ** The authenticated requests *)

Lemma canonical_content_type :
  CanonicalMIMEHeaderKey "Content-Type" = "Content-Type".
Proof. reflexivity. Qed.

Lemma canonical_cache_control :
  CanonicalMIMEHeaderKey "Cache-Control" = "Cache-Control".
Proof. reflexivity. Qed.

Lemma GetRequestWithBearerAuth_shape {X : Extern} {P : Process} (g : GoArpa)
    (ctx : Ctx) (token : string) :
  GetRequestWithBearerAuth g ctx token
  = mkRequest (Some ctx) "" "" token
      (<["Content-Type" := ["application/json"]]> (Request_Header (GetRequest g ctx)))
      ∅ [] None None (Some HTTPErrorResponse_zero).
Proof.
  unfold GetRequestWithBearerAuth, SetHeader, Header_Set.
  rewrite canonical_content_type.
  destruct (GetRequest_shape g ctx) as [hdr ->]. reflexivity.
Qed.

(** X6. The request with bearer authentication carries the token and
    the JSON content type, which replaces a content type that the
    tracer may have injected; every other header is as the tracing step
    left it, and nothing else is set: no cookie, no query parameter, no
    body, no result container. The no-cache variant is that request
    with the one header [Cache-Control: no-cache] more. *)
Theorem bearer_requests {X : Extern} {P : Process} (g : GoArpa) (ctx : Ctx)
    (token : string) :
  let r := GetRequestWithBearerAuth g ctx token in
  let n := GetRequestWithBearerAuthNoCache g ctx token in
  Token r = token
  /\ Request_Header r !! "Content-Type" = Some ["application/json"]
  /\ (forall key, key <> "Content-Type" ->
      Request_Header r !! key = Request_Header (GetRequest g ctx) !! key)
  /\ Cookies r = [] /\ QueryParam r = ∅ /\ Body r = None /\ Result r = None
  /\ Request_ctx r = Some ctx
  /\ n = withHeader (<["Cache-Control" := ["no-cache"]]> (Request_Header r)) r
  /\ Request_Header n !! "Cache-Control" = Some ["no-cache"]
  /\ Request_Header n !! "Content-Type" = Some ["application/json"].
Proof.
  intros r n.
  assert (Hn : n = withHeader (<["Cache-Control" := ["no-cache"]]> (Request_Header r)) r).
  { unfold n, r, GetRequestWithBearerAuthNoCache, GetRequestWithBearerAuth.
    unfold SetHeader at 1. unfold Header_Set at 1.
    now rewrite canonical_cache_control. }
  unfold r in *. rewrite GetRequestWithBearerAuth_shape in *.
  cbn [Token Request_Header Cookies QueryParam Body Result Request_ctx].
  split; [reflexivity |]. split; [apply lookup_insert_eq |].
  split; [intros key Hkey; now apply lookup_insert_ne |].
  split; [reflexivity |]. split; [reflexivity |]. split; [reflexivity |].
  split; [reflexivity |]. split; [reflexivity |]. split; [exact Hn |].
  rewrite Hn. cbn [withHeader Request_Header].
  split; [apply lookup_insert_eq |].
  rewrite lookup_insert_ne by discriminate. apply lookup_insert_eq.
Qed.

(** ** The lookups *)

Lemma cookie_request_shape {X : Extern} {P : Process} (g : GoArpa) (ctx : Ctx)
    (token : string) (first : Cookie) (rest : list Cookie) :
  GetRequestWithBearerAuthWithCookie g ctx token (Some (first :: rest))
  = Ret (mkRequest (Some ctx) "" "" token
           (<["Content-Type" := ["application/json"]]>
              (Request_Header (GetRequest g ctx)))
           ∅ [first] None None (Some HTTPErrorResponse_zero)).
Proof.
  unfold GetRequestWithBearerAuthWithCookie. cbn [index0].
  unfold SetHeader, Header_Set. rewrite canonical_content_type.
  destruct (GetRequest_shape g ctx) as [hdr ->]. reflexivity.
Qed.

(** X7. A lookup of a customer, by mobile number or by business code,
    sends one GET to the customer endpoint with the bearer token, the
    JSON content type, the first cookie of the collection and no other,
    and the one query parameter of its key; the cookies after the first
    play no part. On success it returns the address of the container it
    registered as the result, so that the caller reads what the
    transport decoded. *)
Theorem lookup_request_and_result {X : Extern} {P : Process} (g : GoArpa)
    (ctx : Ctx) (accessToken : string) (first : Cookie) (rest : list Cookie)
    (value : string) (h : Heap) :
  let result := List.length h in
  let h0 := h ++ [VGetCustomerResponse GetCustomerResponse_zero] in
  let request key :=
    mkRequest (Some ctx) "GET"
      (basePath g +:+ "/" +:+ GetCustomerEndpoint (Config_ g)) accessToken
      (<["Content-Type" := ["application/json"]]>
         (Request_Header (GetRequest g ctx)))
      {[ key := [value] ]} [first] None (Some result)
      (Some HTTPErrorResponse_zero) in
  let finished key errMessage :=
    finish errMessage None (fun _ => Ret (Some result))
      (Execute (restyClient g) (request key) h0) in
  GetCustomerByMobile g ctx accessToken (Some (first :: rest)) value h
  = finished MobileKey "could not get customer info"
  /\ GetCustomerByBusinessCode g ctx accessToken (Some (first :: rest)) value h
     = finished BusinessCodeKey "could not get customer info"
  /\ (forall key errMessage h' resp,
      Execute (restyClient g) (request key) h0 = (h', (Some resp, None)) ->
      IsError resp = false ->
      finished key errMessage = Ret ((Some result, None), h')).
Proof.
  intros result h0 request finished.
  pose proof (cookie_request_shape g ctx accessToken first rest) as Hreq.
  split; [|split].
  - rewrite (GetCustomerByMobile_steps _ _ _ _ _ _ _ Hreq).
    unfold finished, request. unfold SetQueryParam, Values_Set.
    cbn [withMethodURL withResult Request_ctx Method URL Token Request_Header
           QueryParam Cookies Body Result Error].
    now rewrite insert_empty.
  - rewrite (GetCustomerByBusinessCode_steps _ _ _ _ _ _ _ Hreq).
    unfold finished, request. unfold SetQueryParam, Values_Set.
    cbn [withMethodURL withResult Request_ctx Method URL Token Request_Header
           QueryParam Cookies Body Result Error].
    now rewrite insert_empty.
  - intros key errMessage h' resp Hexec Herr. unfold finished.
    rewrite Hexec. now rewrite finish_success.
Qed.

(** ** The base path *)

Lemma TrimRight_all (c : ascii) (suffix : string) :
  allBytes c suffix = true ->
  strings.TrimRight suffix (String c EmptyString) = EmptyString.
Proof.
  induction suffix as [|d suffix IH]; [reflexivity |].
  cbn [allBytes]. rewrite andb_true_iff. intros [Hd Hall].
  cbn [strings.TrimRight]. rewrite (IH Hall). cbn [strings.inCutset].
  now rewrite Hd.
Qed.

Lemma TrimRight_suffix (c : ascii) (s suffix : string) :
  allBytes c suffix = true ->
  strings.TrimRight (s +:+ suffix) (String c EmptyString)
  = strings.TrimRight s (String c EmptyString).
Proof.
  intros Hall. induction s as [|d s IH].
  - rewrite append_nil_l. now apply TrimRight_all.
  - rewrite append_cons. cbn [strings.TrimRight]. now rewrite IH.
Qed.

Lemma TrimRight_fixed (t : string) :
  lastByte t <> Some "/"%char -> strings.TrimRight t "/" = t.
Proof.
  induction t as [|c t IH]; [reflexivity |].
  intros Hlast. cbn [strings.TrimRight]. destruct t as [|d t].
  - cbn [strings.TrimRight strings.inCutset]. cbn [lastByte] in Hlast.
    destruct (Ascii.eqb_spec c "/") as [->|Hne]; [congruence | reflexivity].
  - rewrite IH by (rewrite lastByte_cons in Hlast by discriminate; exact Hlast).
    reflexivity.
Qed.

(** X8. Separators at the end of the base path make no difference to
    the client that [NewClient] builds, in either version; and the base
    path of a client, given to [NewClient] again, is kept as it is. *)
Theorem NewClient_ignores_trailing_separators {X : Extern} {P : Process}
    (base suffix : string) :
  allBytes "/" suffix = true ->
  (forall options, NewClient (base +:+ suffix) options = NewClient base options)
  /\ (forall options,
      Legacy.NewClient (base +:+ suffix) options = Legacy.NewClient base options)
  /\ (forall options,
      NewClient (basePath (NewClient_defaults base)) options
      = NewClient base options).
Proof.
  intros Hall. split; [|split]; intros options.
  - unfold NewClient, NewClient_defaults, urlSeparator.
    now rewrite (TrimRight_suffix "/" base suffix Hall).
  - unfold Legacy.NewClient, Legacy.NewClient_defaults, urlSeparator.
    now rewrite (TrimRight_suffix "/" base suffix Hall).
  - unfold NewClient. f_equal. unfold NewClient_defaults at 1 3.
    cbn [setGetCustomerEndpoint setCreateServiceEndpoint
           setCreateTransactionEndpoint setCreateCustomerEndpoint
           setGetServiceTokenEndpoint setConfig basePath restyClient Config_].
    rewrite (TrimRight_fixed (basePath (NewClient_defaults base))); [reflexivity |].
    exact (proj2 (TrimRight_separator base)).
Qed.

Lemma NewClient_ignores_trailing_separators_witness :
  allBytes "/" "//" = true
  /\ NewClient (P := Sample.process) ("https://arpa.example" +:+ "//") []
     = NewClient (P := Sample.process) "https://arpa.example" [].
Proof.
  split; [reflexivity |].
  exact (proj1 (NewClient_ignores_trailing_separators (P := Sample.process)
                  "https://arpa.example" "//" eq_refl) []).
Defined.

(** X9. The legacy [NewClient] sets its defaults and then runs the
    options in the order given: the base path is the input without its
    trailing separators, the token endpoint is the join of its three
    segments, and an option added at the end of the list is applied to
    the client that the options before it produce. *)
Theorem Legacy_NewClient_defaults_then_options {X : Extern} {P : Process}
    (base : string) (options : list (Legacy.GoArpa -> Legacy.GoArpa)) :
  Legacy.basePath (Legacy.NewClient_defaults base) = strings.TrimRight base "/"
  /\ trimmedOf "/" base (Legacy.basePath (Legacy.NewClient_defaults base))
  /\ Legacy.GetServiceTokenEndpoint (Legacy.Config_ (Legacy.NewClient_defaults base))
     = "serv/token/GetServiceToken"
  /\ Legacy.restyClient (Legacy.NewClient_defaults base) = resty_New
  /\ Legacy.NewClient base [] = Legacy.NewClient_defaults base
  /\ (forall option,
      Legacy.NewClient base (options ++ [option])
      = option (Legacy.NewClient base options)).
Proof.
  split; [reflexivity |]. split; [apply TrimRight_separator |].
  split; [reflexivity |]. split; [reflexivity |]. split; [reflexivity |].
  intros option. unfold Legacy.NewClient. now rewrite fold_left_app.
Qed.

(** ** [StringOrArray] *)

Lemma decode_encoded (l : list string) :
  Forall (fun e => utf8.ValidString e = true) l ->
  UnmarshalJSON (MarshalJSON (Some l)) = ok (Some l).
Proof.
  intros Hvalid. destruct l as [|a [|b l]].
  - reflexivity.
  - inversion Hvalid as [|? ? Ha _]; subst.
    unfold UnmarshalJSON, MarshalJSON.
    change (byteAt (json.Marshal_string a) 0 =? 91) with false.
    rewrite andb_false_r. now rewrite Unmarshal_Marshal_string.
  - unfold UnmarshalJSON.
    change (MarshalJSON (Some (a :: b :: l)))
      with (json.Marshal_strings (Some (a :: b :: l))).
    rewrite Unmarshal_Marshal_strings by exact Hvalid.
    unfold json.Marshal_strings. rewrite append_cons, append_nil_l.
    rewrite byteAt_0. change (byteVal "[" =? 91) with true.
    rewrite andb_true_r. cbn [String.length]. rewrite length_append.
    cbn [String.length].
    now replace (1 <? S (String.length (json.joinElements (a :: b :: l)) + 1))%nat
      with true by (symmetry; apply Nat.ltb_lt; lia).
Qed.

Lemma encoded_not_null (l : list string) : MarshalJSON (Some l) <> "null".
Proof.
  destruct l as [|a [|b l]]; [discriminate | discriminate |].
  unfold MarshalJSON, json.Marshal_strings. rewrite append_cons. discriminate.
Qed.

(** X10. [UnmarshalJSON] never sets the receiver to the nil slice. Data
    of at most one byte, or that does not begin with a bracket, is read
    as one JSON string and gives exactly one element; any other data is
    read as a JSON array. *)
Theorem UnmarshalJSON_never_nil (data : string) (v : StringOrArray) :
  UnmarshalJSON data = ok v ->
  exists l, v = Some l
    /\ ((String.length data <= 1)%nat \/ byteAt data 0 <> 91 ->
        exists e, l = [e] /\ json.Unmarshal_string data EmptyString = ok e)
    /\ ((1 < String.length data)%nat /\ byteAt data 0 = 91 ->
        json.Unmarshal_strings data = ok (Some l)).
Proof.
  unfold UnmarshalJSON.
  destruct ((1 <? String.length data)%nat && (byteAt data 0 =? 91)) eqn:Hcond.
  - apply andb_true_iff in Hcond as [Hlen Hfirst].
    apply Nat.ltb_lt in Hlen. apply Z.eqb_eq in Hfirst.
    destruct data as [|c rest]; [cbn in Hlen; lia |].
    rewrite byteAt_0 in Hfirst.
    assert (Hspace : json.isSpace c = false)
      by (unfold json.isSpace; rewrite Hfirst; reflexivity).
    destruct (json.Unmarshal_strings (String c rest)) as [obj|] eqn:Hdec;
      [|discriminate].
    intros [= <-].
    assert (Hsome : exists l, obj = Some l).
    { unfold json.Unmarshal_strings in Hdec.
      rewrite (skipSpace_not_space _ _ Hspace), Hfirst in Hdec.
      change (91 =? 91) with true in Hdec. cbv iota in Hdec.
      destruct (json.skipSpace rest) as [|d rest'] eqn:Hrest; [discriminate |].
      destruct (byteVal d =? 93).
      - destruct (json.atEnd rest'); [|discriminate].
        injection Hdec as <-. now exists [].
      - destruct (json.elements _ _ _) as [[l tail]|]; [|discriminate].
        destruct (json.atEnd tail); [|discriminate].
        injection Hdec as <-. now exists l. }
    destruct Hsome as [l ->]. exists l. split; [reflexivity |]. split.
    + intros [Hshort | Hother]; [lia |]. now rewrite byteAt_0 in Hother.
    + intros _. reflexivity.
  - destruct (json.Unmarshal_string data EmptyString) as [e|] eqn:Hdec;
      [|discriminate].
    intros [= <-]. exists [e]. split; [reflexivity |]. split.
    + intros _. now exists e.
    + intros [Hlen Hfirst].
      apply Nat.ltb_lt in Hlen. apply Z.eqb_eq in Hfirst.
      rewrite Hlen, Hfirst in Hcond. discriminate Hcond.
Qed.

Lemma UnmarshalJSON_never_nil_witness :
  UnmarshalJSON "null" = ok (Some [EmptyString])
  /\ exists l, Some [EmptyString] = Some l
       /\ ((String.length "null" <= 1)%nat \/ byteAt "null" 0 <> 91 ->
           exists e, l = [e] /\ json.Unmarshal_string "null" EmptyString = ok e)
       /\ ((1 < String.length "null")%nat /\ byteAt "null" 0 = 91 ->
           json.Unmarshal_strings "null" = ok (Some l)).
Proof.
  split; [reflexivity |].
  exact (UnmarshalJSON_never_nil "null" (Some [EmptyString]) eq_refl).
Defined.

(** X11. Read by [UnmarshalJSON], an array behind white space is an
    error, though it is the same array for [json.Unmarshal]: the branch
    is chosen by the very first byte of the data, and data that does
    not begin with a bracket is read as a string. *)
Theorem UnmarshalJSON_refuses_array_behind_space (c : ascii) (rest body : string) :
  json.isSpace c = true ->
  json.skipSpace rest = String "[" body ->
  UnmarshalJSON (String c rest) = failed
  /\ json.Unmarshal_strings (String c rest)
     = json.Unmarshal_strings (String "[" body).
Proof.
  intros Hspace Hrest.
  assert (Hskip : json.skipSpace (String c rest) = String "[" body)
    by (cbn [json.skipSpace]; now rewrite Hspace).
  split.
  - unfold UnmarshalJSON. rewrite byteAt_0.
    replace (byteVal c =? 91) with false.
    + rewrite andb_false_r. unfold json.Unmarshal_string. now rewrite Hskip.
    + symmetry. apply Z.eqb_neq. intros Hval. unfold json.isSpace in Hspace.
      rewrite Hval in Hspace. discriminate Hspace.
  - unfold json.Unmarshal_strings. rewrite Hskip.
    now rewrite (skipSpace_not_space "[" body eq_refl).
Qed.

Lemma UnmarshalJSON_refuses_array_behind_space_witness :
  UnmarshalJSON " []" = failed
  /\ json.Unmarshal_strings " []" = ok (Some []).
Proof.
  destruct (UnmarshalJSON_refuses_array_behind_space " " "[]" "]" eq_refl eq_refl)
    as [Hrefused Hsame].
  split; [exact Hrefused | rewrite Hsame; reflexivity].
Defined.

(** X12. A string of valid UTF-8 is accepted in both of its JSON forms:
    the bare string and the array with that one element unmarshal to the
    same value, the slice holding the string. *)
Theorem single_string_both_forms (s : string) :
  utf8.ValidString s = true ->
  UnmarshalJSON (json.Marshal_string s) = ok (Some [s])
  /\ UnmarshalJSON (json.Marshal_strings (Some [s])) = ok (Some [s])
  /\ json.Marshal_strings (Some [s]) = "[" +:+ json.Marshal_string s +:+ "]".
Proof.
  intros Hvalid.
  assert (Hall : Forall (fun e => utf8.ValidString e = true) [s])
    by (constructor; [exact Hvalid | constructor]).
  split; [|split].
  - exact (decode_encoded [s] Hall).
  - unfold UnmarshalJSON.
    rewrite Unmarshal_Marshal_strings by exact Hall.
    unfold json.Marshal_strings. rewrite append_cons, append_nil_l.
    rewrite byteAt_0. change (byteVal "[" =? 91) with true.
    rewrite andb_true_r. cbn [String.length]. rewrite length_append.
    cbn [String.length json.joinElements]. unfold json.appendString.
    cbn [String.length].
    now replace (1 <? S (S _ + 1))%nat
      with true by (symmetry; apply Nat.ltb_lt; lia).
  - reflexivity.
Qed.

Lemma single_string_both_forms_witness :
  utf8.ValidString "admin" = true
  /\ UnmarshalJSON (json.Marshal_string "admin") = ok (Some ["admin"])
  /\ UnmarshalJSON (json.Marshal_strings (Some ["admin"])) = ok (Some ["admin"]).
Proof.
  split; [reflexivity |].
  pose proof (single_string_both_forms "admin" eq_refl) as [Hbare [Harray _]].
  split; [exact Hbare | exact Harray].
Defined.

(** X13. [MarshalJSON] never writes the same text for two different
    values whose elements are valid UTF-8, the nil slice included: the
    text tells the values apart. *)
Theorem MarshalJSON_injective (v w : StringOrArray) :
  (forall l, v = Some l -> Forall (fun e => utf8.ValidString e = true) l) ->
  (forall l, w = Some l -> Forall (fun e => utf8.ValidString e = true) l) ->
  MarshalJSON v = MarshalJSON w -> v = w.
Proof.
  intros Hv Hw Heq. destruct v as [l|], w as [m|].
  - apply (f_equal UnmarshalJSON) in Heq.
    rewrite (decode_encoded l (Hv l eq_refl)) in Heq.
    rewrite (decode_encoded m (Hw m eq_refl)) in Heq.
    congruence.
  - exfalso. exact (encoded_not_null l Heq).
  - exfalso. exact (encoded_not_null m (eq_sym Heq)).
  - reflexivity.
Qed.

Lemma MarshalJSON_injective_witness :
  MarshalJSON (Some ["a"; "b"]) = MarshalJSON (Some ["a"; "b"])
  /\ Some ["a"; "b"] = Some ["a"; "b"].
Proof.
  split; [reflexivity |].
  apply (MarshalJSON_injective (Some ["a"; "b"]) (Some ["a"; "b"])).
  - intros l [= <-]. repeat constructor.
  - intros l [= <-]. repeat constructor.
  - reflexivity.
Defined.

(** ** [EnforcedString] *)

Lemma printable_not_backslash (c : ascii) :
  printable (byteVal c) = true -> Ascii.eqb c json.backslash = false.
Proof.
  intros Hc. destruct (Ascii.eqb_spec c json.backslash) as [->|]; [|reflexivity].
  discriminate Hc.
Qed.

Lemma not_quote_byte (c : ascii) :
  Ascii.eqb c json.quote = false -> (byteVal c =? 34) = false.
Proof.
  intros Hc. apply Z.eqb_neq. intros Hval.
  apply Ascii.eqb_neq in Hc. apply Hc.
  rewrite <- (byteOf_byteVal c), Hval. reflexivity.
Qed.

(** One turn of the decoder on a printable byte, and on an escaped
    quote. *)
Lemma unquoteBody_printable (c : ascii) (m : nat) (rest : string) :
  printable (byteVal c) = true ->
  Ascii.eqb c json.quote = false ->
  json.unquoteBody (S m) (String c rest)
  = json.emit (String c EmptyString) (json.unquoteBody m rest).
Proof.
  intros Hc Hquote. cbn [json.unquoteBody]. cbv zeta.
  rewrite (not_quote_byte c Hquote).
  unfold printable in Hc. rewrite !andb_true_iff, negb_true_iff in Hc.
  destruct Hc as [[Hlow Hhigh] Hback].
  rewrite Hback. unfold utf8.RuneSelf. rewrite Hhigh.
  now replace (byteVal c <? 32) with false by (symmetry; zbool).
Qed.

Lemma unquoteBody_escaped_quote (m : nat) (rest : string) :
  json.unquoteBody (S m) (escapedQuote +:+ rest)
  = json.emit quoteText (json.unquoteBody m rest).
Proof. reflexivity. Qed.

(** The first replacement does not shorten the text. *)
Lemma replace_quotes_length (fuel : nat) :
  forall s : string,
    (String.length s
     <= String.length (bytes.replaceFrom fuel s quoteText escapedQuote))%nat.
Proof.
  induction fuel as [|fuel IH]; intros s; [cbn; lia |].
  destruct s as [|c rest]; [cbn; lia |].
  cbn [bytes.replaceFrom strings.HasPrefix quoteText].
  destruct (Ascii.eqb c json.quote).
  - cbn [String.length dropBytes quoteText escapedQuote].
    rewrite length_append. specialize (IH rest).
    change (String.length escapedQuote) with 2%nat. lia.
  - specialize (IH rest). cbn [String.length]. lia.
Qed.

(** Text without a backslash has no escaped quote behind a backslash. *)
Lemma replace_nothing (fuel : nat) :
  forall s : string,
    everyByte printable s = true ->
    bytes.replaceFrom fuel s doubleEscapedQuote escapedQuote = s.
Proof.
  induction fuel as [|fuel IH]; intros s Hs; [reflexivity |].
  destruct s as [|c rest]; [reflexivity |].
  cbn [everyByte] in Hs. apply andb_true_iff in Hs as [Hc Hrest].
  cbn [bytes.replaceFrom strings.HasPrefix doubleEscapedQuote].
  rewrite (printable_not_backslash c Hc). now rewrite (IH rest Hrest).
Qed.

(** The second replacement finds nothing in what the first one wrote
    for text without a backslash. *)
Lemma second_replace_identity (fuel : nat) :
  forall (s : string) (fuel' : nat),
    everyByte printable s = true ->
    bytes.replaceFrom fuel'
      (bytes.replaceFrom fuel s quoteText escapedQuote)
      doubleEscapedQuote escapedQuote
    = bytes.replaceFrom fuel s quoteText escapedQuote.
Proof.
  induction fuel as [|fuel IH]; intros s fuel' Hs.
  - cbn [bytes.replaceFrom]. now apply replace_nothing.
  - destruct s as [|c rest]; [now destruct fuel' |].
    cbn [everyByte] in Hs. apply andb_true_iff in Hs as [Hc Hrest].
    cbn [bytes.replaceFrom strings.HasPrefix quoteText].
    destruct (Ascii.eqb c json.quote).
    + cbn [String.length dropBytes quoteText]. unfold escapedQuote, quoteText.
      rewrite !append_cons, append_nil_l.
      destruct fuel' as [|[|fuel']]; [reflexivity | reflexivity |].
      cbn [bytes.replaceFrom strings.HasPrefix doubleEscapedQuote escapedQuote
             quoteText].
      change (Ascii.eqb json.backslash json.backslash) with true.
      change (Ascii.eqb json.quote json.backslash) with false.
      cbv iota. do 2 f_equal. exact (IH rest fuel' Hrest).
    + destruct fuel' as [|fuel']; [reflexivity |].
      cbn [bytes.replaceFrom strings.HasPrefix doubleEscapedQuote].
      rewrite (printable_not_backslash c Hc). now rewrite (IH rest fuel' Hrest).
Qed.

(** The decoder gives back the text whose quotes were escaped. *)
Lemma unquote_escaped (s : string) :
  forall (fuel : nat) (tail : string) (m : nat),
    (String.length s <= fuel)%nat ->
    everyByte printable s = true ->
    (String.length s < m)%nat ->
    json.unquoteBody m
      (bytes.replaceFrom fuel s quoteText escapedQuote +:+ String json.quote tail)
    = ok (s, tail).
Proof.
  induction s as [|c rest IH]; intros fuel tail m Hfuel Hs Hm.
  - replace (bytes.replaceFrom fuel EmptyString quoteText escapedQuote)
      with EmptyString by now destruct fuel.
    rewrite append_nil_l.
    destruct m; [cbn [String.length] in Hm; lia | apply unquoteBody_quote].
  - cbn [String.length] in Hfuel, Hm.
    destruct fuel as [|fuel]; [lia |]. destruct m as [|m]; [lia |].
    cbn [everyByte] in Hs. apply andb_true_iff in Hs as [Hc Hrest].
    cbn [bytes.replaceFrom strings.HasPrefix quoteText].
    destruct (Ascii.eqb_spec c json.quote) as [->|Hne].
    + cbn [String.length dropBytes quoteText]. rewrite append_assoc.
      rewrite unquoteBody_escaped_quote.
      rewrite (IH fuel tail m); [reflexivity | lia | exact Hrest | lia].
    + rewrite append_cons.
      rewrite unquoteBody_printable
        by (try exact Hc; now apply Ascii.eqb_neq).
      rewrite (IH fuel tail m); [reflexivity | lia | exact Hrest | lia].
Qed.

(** X14. What [MarshalJSON] writes for an [EnforcedString] of valid
    UTF-8, [UnmarshalJSON] reads back: the receiver is the string again
    and the error is nil. *)
Theorem EnforcedString_roundtrip (s : EnforcedString) :
  utf8.ValidString s = true ->
  EnforcedString_UnmarshalJSON (EnforcedString_MarshalJSON s) = Ret (s, true).
Proof.
  intros Hvalid.
  pose proof (Unmarshal_Marshal_string s EmptyString Hvalid) as Hdec.
  unfold EnforcedString_MarshalJSON, EnforcedString_UnmarshalJSON.
  unfold json.Marshal_string, json.appendString in *.
  cbv iota beta zeta.
  change (byteVal json.quote =? 34) with true. cbn [negb].
  now rewrite Hdec.
Qed.

Lemma EnforcedString_roundtrip_witness :
  utf8.ValidString "42" = true
  /\ EnforcedString_UnmarshalJSON (EnforcedString_MarshalJSON "42")
     = Ret ("42", true).
Proof.
  split; [reflexivity | exact (EnforcedString_roundtrip "42" eq_refl)].
Defined.

(** X15. Data that is not quoted (a number, a boolean, an object) is
    kept as it is: for data that is not empty, does not begin with a
    quote and consists of printable ASCII bytes without a backslash,
    [UnmarshalJSON] sets the receiver to the data itself, quotes inside
    it included, and returns a nil error. *)
Theorem EnforcedString_keeps_unquoted_text (data : string) :
  data <> EmptyString ->
  byteAt data 0 <> 34 ->
  everyByte printable data = true ->
  EnforcedString_UnmarshalJSON data = Ret (data, true).
Proof.
  intros Hdata Hfirst Hprintable.
  destruct data as [|c rest]; [congruence |]. rewrite byteAt_0 in Hfirst.
  unfold EnforcedString_UnmarshalJSON.
  replace (byteVal c =? 34) with false by (symmetry; now apply Z.eqb_neq).
  cbn [negb]. cbv zeta. unfold bytes.ReplaceAll.
  rewrite second_replace_identity by exact Hprintable.
  set (escaped := bytes.replaceFrom _ _ _ _).
  pose proof (replace_quotes_length (String.length (String c rest)) (String c rest))
    as Hlen.
  fold escaped in Hlen.
  unfold json.Unmarshal_string, quoteText at 1.
  rewrite append_cons, append_nil_l, append_cons.
  rewrite (skipSpace_not_space _ _ quote_not_space).
  cbn [json.stringValue]. change (byteVal json.quote =? 34) with true. cbv iota.
  unfold quoteText, escaped.
  rewrite (unquote_escaped (String c rest) _ EmptyString);
    [reflexivity | lia | exact Hprintable |].
  fold escaped. rewrite length_append. cbn [String.length] in *. lia.
Qed.

Lemma EnforcedString_keeps_unquoted_text_witness :
  EnforcedString_UnmarshalJSON ("{" +:+ quoteText +:+ "id" +:+ quoteText +:+ ":7}")
  = Ret ("{" +:+ quoteText +:+ "id" +:+ quoteText +:+ ":7}", true).
Proof.
  apply EnforcedString_keeps_unquoted_text;
    [discriminate | vm_compute; discriminate | reflexivity].
Defined.

(** ** [CustomTime] *)

Lemma Trim_prefix (c : ascii) (pre s : string) :
  allBytes c pre = true ->
  strings_Trim (pre +:+ s) (String c EmptyString)
  = strings_Trim s (String c EmptyString).
Proof.
  induction pre as [|d pre IH]; [now rewrite append_nil_l |].
  cbn [allBytes]. rewrite andb_true_iff. intros [Hd Hall].
  specialize (IH Hall). rewrite append_cons. unfold strings_Trim in *.
  cbn [strings.TrimRight].
  destruct (strings.TrimRight (pre +:+ s) (String c EmptyString)) as [|k kept].
  - cbn [strings.inCutset]. rewrite Hd. cbn [orb strings_TrimLeft].
    now rewrite <- IH.
  - rewrite <- IH. cbn [strings_TrimLeft strings.inCutset]. now rewrite Hd.
Qed.

Lemma Trim_surrounded (c : ascii) (pre s post : string) :
  allBytes c pre = true -> allBytes c post = true ->
  strings_Trim (pre +:+ s +:+ post) (String c EmptyString)
  = strings_Trim s (String c EmptyString).
Proof.
  intros Hpre Hpost. rewrite (Trim_prefix c pre _ Hpre).
  unfold strings_Trim. now rewrite (TrimRight_suffix c s post Hpost).
Qed.

(** X16. [CustomTime.UnmarshalJSON] does not see the quotes around its
    data: any number of quotes before and after the data gives the same
    receiver and the same error as the data alone, whatever the time
    parser does. Data made of quotes only leaves the receiver as it is
    and returns a nil error. *)
Theorem CustomTime_ignores_quotes {X : Extern}
    (time_Parse : string -> string -> Time * error)
    (ct : CustomTime) (pre data post : string) :
  allBytes json.quote pre = true ->
  allBytes json.quote post = true ->
  CustomTime_UnmarshalJSON time_Parse ct (pre +:+ data +:+ post)
  = CustomTime_UnmarshalJSON time_Parse ct data
  /\ CustomTime_UnmarshalJSON time_Parse ct (pre +:+ post) = (ct, None).
Proof.
  intros Hpre Hpost. split.
  - unfold CustomTime_UnmarshalJSON, quoteText.
    now rewrite (Trim_surrounded json.quote pre data post Hpre Hpost).
  - unfold CustomTime_UnmarshalJSON, quoteText.
    rewrite (Trim_prefix json.quote pre post Hpre). unfold strings_Trim.
    now rewrite (TrimRight_all json.quote post Hpost).
Qed.

Lemma CustomTime_ignores_quotes_witness :
  CustomTime_UnmarshalJSON Scenario.parseTime Scenario.earlier
    (quoteText +:+ "2024-03-01 10:00:00" +:+ quoteText)
  = CustomTime_UnmarshalJSON Scenario.parseTime Scenario.earlier
      "2024-03-01 10:00:00"
  /\ CustomTime_UnmarshalJSON Scenario.parseTime Scenario.earlier
       (quoteText +:+ quoteText)
     = (Scenario.earlier, None).
Proof.
  apply (CustomTime_ignores_quotes (X := Sample.extern)); reflexivity.
Defined.

(** X17. When [CustomTime.UnmarshalJSON] returns an error the receiver
    keeps its value, and the error is the one of the time parser, for
    the data without its quotes, behind the text [failed to parse time]. *)
Theorem CustomTime_error_keeps_receiver {X : Extern}
    (time_Parse : string -> string -> Time * error)
    (ct ct' : CustomTime) (data text : string) :
  CustomTime_UnmarshalJSON time_Parse ct data = (ct', Some text) ->
  ct' = ct
  /\ strings_Trim data quoteText <> EmptyString
  /\ exists cause,
       (time_Parse "2006-01-02 15:04:05" (strings_Trim data quoteText)).2
       = Some cause
       /\ text = "failed to parse time: " +:+ cause.
Proof.
  unfold CustomTime_UnmarshalJSON. cbv zeta.
  destruct (strings_Trim data quoteText) as [|c str]; [discriminate |].
  destruct (time_Parse _ _) as [t [cause|]]; [|discriminate].
  intros [= <- <-]. split; [reflexivity |]. split; [discriminate |].
  now exists cause.
Qed.

Lemma CustomTime_error_keeps_receiver_witness :
  CustomTime_UnmarshalJSON Scenario.parseTime Scenario.earlier "null"
  = (Scenario.earlier, Some "failed to parse time: cannot parse as 2006")
  /\ strings_Trim "null" quoteText <> EmptyString.
Proof.
  split; [reflexivity |].
  exact (proj1 (proj2 (CustomTime_error_keeps_receiver (X := Sample.extern)
                         Scenario.parseTime Scenario.earlier Scenario.earlier
                         "null" "failed to parse time: cannot parse as 2006"
                         eq_refl))).
Defined.

(** ** The failing hook of the tests *)

Lemma int_small (z : Z) : - 2 ^ 63 <= z < 2 ^ 63 -> FailRequest.int z = z.
Proof. intros Hz. unfold FailRequest.int. rewrite Z.mod_small; lia. Qed.

(** X18. The hook that [FailRequest] installs lets the first [skipN]
    requests pass, fails the [failN] requests after them and lets every
    later one pass. All the failures carry one error: the error given
    to [FailRequest], or, when that is nil, the default error made of
    the first request that was failed. *)
Theorem FailRequest_window {X : Extern} (Errorf_request : Request -> string)
    (rs : list Request) :
  forall (v : FailRequest.Captured) (i : nat),
    0 <= FailRequest.skipN v < 2 ^ 63 ->
    0 <= FailRequest.failN v < 2 ^ 63 ->
    (i < List.length rs)%nat ->
    FailRequest.answers Errorf_request v rs !! i
    = Some (if (FailRequest.skipN v <=? Z.of_nat i)
               && (Z.of_nat i <? FailRequest.skipN v + FailRequest.failN v)
            then FailRequest.failure Errorf_request v rs
            else None)
    /\ (FailRequest.skipN v <= Z.of_nat i ->
        FailRequest.failure Errorf_request v rs <> None).
Proof.
  induction rs as [|r rs IH]; intros [err failN skipN] i Hskip Hfail Hi;
    cbn [FailRequest.skipN FailRequest.failN] in *;
    [cbn [List.length] in Hi; lia |].
  cbn [List.length] in Hi. cbn [FailRequest.answers]. unfold FailRequest.hook.
  cbn [FailRequest.skipN FailRequest.failN FailRequest.err].
  destruct (0 <? skipN) eqn:Hpos.
  - (* the request is skipped *)
    apply Z.ltb_lt in Hpos. rewrite int_small by lia.
    assert (Hsame : FailRequest.failure Errorf_request
                      (FailRequest.mkCaptured err failN skipN) (r :: rs)
                    = FailRequest.failure Errorf_request
                        (FailRequest.mkCaptured err failN (skipN - 1)) rs).
    { unfold FailRequest.failure.
      cbn [FailRequest.skipN FailRequest.failN FailRequest.err].
      replace (Z.to_nat skipN) with (S (Z.to_nat (skipN - 1))) by lia.
      reflexivity. }
    rewrite Hsame. destruct i as [|i].
    + cbn [lookup list_lookup]. split; [|intros; lia].
      now replace (skipN <=? Z.of_nat 0) with false by (symmetry; zbool).
    + cbn [lookup list_lookup].
      destruct (IH (FailRequest.mkCaptured err failN (skipN - 1)) i)
        as [Hanswer Hsome];
        cbn [FailRequest.skipN FailRequest.failN]; [lia | lia | lia |].
      cbn [FailRequest.skipN FailRequest.failN] in Hanswer, Hsome.
      split; [|intros; apply Hsome; lia].
      refine (eq_trans Hanswer _). f_equal.
      replace (skipN <=? Z.of_nat (S i)) with (skipN - 1 <=? Z.of_nat i)
        by (apply eq_true_iff_eq; rewrite !Z.leb_le; lia).
      now replace (Z.of_nat (S i) <? skipN + failN)
        with (Z.of_nat i <? skipN - 1 + failN)
        by (apply eq_true_iff_eq; rewrite !Z.ltb_lt; lia).
  - apply Z.ltb_ge in Hpos. assert (skipN = 0) as -> by lia.
    destruct (failN =? 0) eqn:Hzero.
    + (* nothing is left to fail *)
      apply Z.eqb_eq in Hzero. subst failN.
      assert (Hnone : FailRequest.failure Errorf_request
                        (FailRequest.mkCaptured err 0 0) (r :: rs) <> None).
      { unfold FailRequest.failure. cbn. now destruct err. }
      destruct i as [|i]; cbn [lookup list_lookup].
      * split; [|intros _; exact Hnone].
        now replace (Z.of_nat 0 <? 0 + 0) with false by reflexivity.
      * destruct (IH (FailRequest.mkCaptured err 0 0) i) as [Hanswer _];
          cbn [FailRequest.skipN FailRequest.failN]; [lia | lia | lia |].
        cbn [FailRequest.skipN FailRequest.failN] in Hanswer.
        split; [|intros _; exact Hnone].
        refine (eq_trans Hanswer _). f_equal.
        replace (Z.of_nat i <? 0 + 0) with false by (symmetry; zbool).
        replace (Z.of_nat (S i) <? 0 + 0) with false by (symmetry; zbool).
        now rewrite !andb_false_r.
    + (* the request is failed *)
      apply Z.eqb_neq in Hzero. rewrite int_small by lia.
      set (text := match err with
                   | Some given => given
                   | None => Errorf_request r
                   end).
      assert (Herr : match err with
                     | Some given => Some given
                     | None => Some (Errorf_request r)
                     end = Some text) by (unfold text; now destruct err).
      rewrite Herr.
      assert (Hfailure : FailRequest.failure Errorf_request
                           (FailRequest.mkCaptured err failN 0) (r :: rs)
                         = Some text).
      { unfold FailRequest.failure, text. cbn. now destruct err. }
      rewrite Hfailure. destruct i as [|i]; cbn [lookup list_lookup].
      * split; [|discriminate].
        now replace (Z.of_nat 0 <? 0 + failN) with true by (symmetry; zbool).
      * destruct (IH (FailRequest.mkCaptured (Some text) (failN - 1) 0) i)
          as [Hanswer _];
          cbn [FailRequest.skipN FailRequest.failN]; [lia | lia | lia |].
        cbn [FailRequest.skipN FailRequest.failN] in Hanswer.
        split; [|discriminate].
        refine (eq_trans Hanswer _). f_equal.
        replace (0 <=? Z.of_nat i) with true by (symmetry; zbool).
        replace (0 <=? Z.of_nat (S i)) with true by (symmetry; zbool).
        replace (Z.of_nat (S i) <? 0 + failN)
          with (Z.of_nat i <? 0 + (failN - 1))
          by (apply eq_true_iff_eq; rewrite !Z.ltb_lt; lia).
        reflexivity.
Qed.

Lemma FailRequest_window_witness :
  FailRequest.answers Scenario.describe (FailRequest.mkCaptured None 1 1)
    Scenario.threeRequests !! 1%nat
  = Some (Some "an error for request: second").
Proof.
  refine (proj1 (FailRequest_window (X := Sample.extern) Scenario.describe
                   Scenario.threeRequests (FailRequest.mkCaptured None 1 1)
                   1%nat _ _ _));
    [ cbn [FailRequest.skipN]; lia
    | cbn [FailRequest.failN]; lia
    | unfold Scenario.threeRequests; cbn [List.length]; lia ].
Defined.
